(** * plot.py: analysis and plotting script of the motion-features pipeline

    A shallow embedding of [plot.py] and the properties of its command
    line, its dispatch, its prediction loop and its five analyses.

    The script is glue code: it calls the training utilities
    ([get_run_info], [load_run], [get_run_summary]), torch, numpy,
    sklearn, pandas and matplotlib.  The collaborators that the script
    does not define are the fields of the classes [Types] and [World];
    the calls with an effect the user can observe (drawing, saving a
    figure, writing a CSV file, printing) are the constructors of [event],
    and a run of the script is the list of events it issues, in order. *)

From Stdlib Require Import ZArith List String Ascii Bool Lia.
From stdpp Require Import base option list gmap strings sorting.

Open Scope string_scope.
Open Scope list_scope.

(** ** Exceptions and results *)

(** The Python exceptions the script can meet.  [LibraryError] stands for
    whatever a collaborator or a library call raises. *)
Inductive exn : Type :=
| KeyError (key : string)
| IndexError
| ValueError (msg : string)
| ZeroDivisionError
| LibraryError (what : string).

Inductive result (A : Type) : Type :=
| Ok (a : A)
| Raise (e : exn).
Arguments Ok {A} a.
Arguments Raise {A} e.

#[global] Instance result_ret : MRet result := fun _ a => Ok a.
#[global] Instance result_bind : MBind result := fun _ _ f r =>
  match r with
  | Ok a => f a
  | Raise e => Raise e
  end.
#[global] Instance result_fmap : FMap result := fun _ _ f r =>
  match r with
  | Ok a => Ok (f a)
  | Raise e => Raise e
  end.

(** A list comprehension over a fallible call: stops at the first failure. *)
Fixpoint traverse {A B : Type} (f : A → result B) (l : list A) : result (list B) :=
  match l with
  | [] => Ok []
  | a :: l' =>
      match f a with
      | Raise e => Raise e
      | Ok b =>
          match traverse f l' with
          | Raise e => Raise e
          | Ok bs => Ok (b :: bs)
          end
      end
  end.

(** ** Paths ([os.path], POSIX flavour) *)

Definition sep : ascii := "/"%char.

Definition is_sep (c : ascii) : bool := Ascii.eqb c sep.

Fixpoint lstrip_while (p : ascii → bool) (l : list ascii) : list ascii :=
  match l with
  | [] => []
  | c :: l' => if p c then lstrip_while p l' else l
  end.

Definition rstrip_while (p : ascii → bool) (l : list ascii) : list ascii :=
  rev (lstrip_while p (rev l)).

Definition startswith_sep (s : string) : bool :=
  match s with
  | String c _ => is_sep c
  | EmptyString => false
  end.

Definition endswith_sep (s : string) : bool :=
  match rev (list_ascii_of_string s) with
  | c :: _ => is_sep c
  | [] => false
  end.

(** [os.path.join(a, b)] for two components. *)
Definition os_path_join (a b : string) : string :=
  if startswith_sep b then b
  else if (String.eqb a "" || endswith_sep a)%bool then a +:+ b
  else a +:+ "/" +:+ b.

(** [os.path.dirname(p)]: everything up to and including the last
    separator, then without its trailing separators unless it consists of
    separators only. *)
Definition os_path_dirname (p : string) : string :=
  let head := rstrip_while (fun c => negb (is_sep c)) (list_ascii_of_string p) in
  if forallb is_sep head then string_of_list_ascii head
  else string_of_list_ascii (rstrip_while is_sep head).

(** ** The command line *)

(** The namespace [parser.parse_args()] returns. *)
Record Namespace : Type := {
  type : string;
  run_dir : string;
  data : option string;
  output : option string
}.

(** A command line as [argparse] sees it once the option strings are
    recognised: the positional tokens, in order, and the value given to
    [-d/--data] and to [-o/--output], if any.  Where the options stand
    among the positionals, [-h] and unknown options are not part of the
    model. *)
Record cmdline : Type := {
  positionals : list string;
  opt_data : option string;
  opt_output : option string
}.

Definition choices : list string :=
  ["train"; "confusion"; "status"; "multi-eval"; "ablation"].

(** [parser.parse_args()]: [type] is a required positional restricted to
    [choices], [run_dir] is an optional positional ([nargs='?']) whose
    default is ['runs/'], [-d] and [-o] take one string each and default to
    [None].  [None] is the parser's error exit. *)
Definition parse_args (c : cmdline) : option Namespace :=
  match positionals c with
  | [t] =>
      if bool_decide (t ∈ choices)
      then Some {| type := t; run_dir := "runs/";
                   data := opt_data c; output := opt_output c |}
      else None
  | [t; d] =>
      if bool_decide (t ∈ choices)
      then Some {| type := t; run_dir := d;
                   data := opt_data c; output := opt_output c |}
      else None
  | _ => None
  end.

(** Truth value of [args.output] in [if args.output:]: [None] and the
    empty string are false. *)
Definition truthy_str (o : option string) : bool :=
  match o with
  | None => false
  | Some s => negb (String.eqb s "")
  end.

(** ** Values of the collaborators *)

(** Types the script only passes around. *)
Class Types : Type := {
  float : Type;        (* a floating-point number *)
  input : Type;        (* a batch of model inputs, [x] *)
  model : Type;        (* a loaded network *)
  checkpoint : Type;   (* the [best_model] entry of a run info *)
  cell : Type;         (* the content of a DataFrame cell *)
  series : Type        (* a pandas Series, as printed by [ablation] *)
}.

(** A hyper-parameter value of [params]. *)
Inductive value : Type :=
| VBool (b : bool)
| VInt (z : Z)
| VStr (s : string).

(** Truth value of a Python value in [if cuda:]. *)
Definition truthy (v : value) : bool :=
  match v with
  | VBool b => b
  | VInt z => negb (Z.eqb z 0)
  | VStr s => negb (String.eqb s "")
  end.

(** [d[key]] on a dict. *)
Definition getitem {V : Type} (d : gmap string V) (key : string) : result V :=
  match d !! key with
  | Some v => Ok v
  | None => Raise (KeyError key)
  end.

Section Values.
Context `{Types}.

(** A 2-d array (torch tensor or numpy array) in row-major order. *)
Record array2 : Type := {
  nrows : nat;
  ncols : nat;
  elems2 : list float
}.

(** A 3-d numpy array in row-major order. *)
Record array3 : Type := {
  dim0 : nat;
  dim1 : nat;
  dim2 : nat;
  elems3 : list float
}.

(** The tuple [get_run_info] returns:
    [(run_dir, loss, accuracy, label, best_model, params)]. *)
Record run_info : Type := {
  ri_run_dir : string;
  ri_loss : list float;
  ri_accuracy : list float;
  ri_label : string;
  ri_best_model : checkpoint;
  ri_params : gmap string value
}.

Record Dataset : Type := {
  ds_len : nat;                        (* [len(dataset)] *)
  skip : nat;                          (* [dataset.skip] *)
  action_descriptions : list string    (* [dataset.action_descriptions] *)
}.

(** A data loader: the batches [(x, y)] it yields, [y] being the 1-d
    tensor of the targets of the batch, and its dataset. *)
Record DataLoader : Type := {
  batches : list (input * list Z);
  dataset : Dataset
}.

(** A pandas DataFrame: its column labels and its rows; a row maps a
    column label to a cell, a missing entry being NaN. *)
Record DataFrame : Type := {
  columns : list string;
  rows : list (gmap string cell)
}.

Inductive xy : Type := xaxis | yaxis.

(** The observable calls of the script.  The axes of
    [fig, (ax1, ax2) = plt.subplots(2, 1)] are numbered 1 and 2. *)
Inductive event : Type :=
| plt_subplots (nrows ncols : nat)          (* [plt.subplots(nrows, ncols)] *)
| ax_set_title (ax : nat) (title : string)  (* [ax.set_title(title)] *)
| ax_plot (ax : nat) (ys : list float) (label : string)
                                            (* [ax.plot(ys, label=label)] *)
| ax_set_ylim (ax : nat) (lo hi : Z)        (* [ax.set_ylim([lo, hi])] *)
| plt_legend (loc : string) (size : nat)    (* [plt.legend(loc=loc, prop={'size': size})] *)
| plt_tight_layout                          (* [plt.tight_layout()] *)
| plt_savefig (fname : string) (bbox_tight : bool)
                                            (* [plt.savefig(fname[, bbox_inches='tight'])] *)
| plt_figure (width height : nat)           (* [plt.figure(figsize=(width, height))] *)
| plt_title (title : string)                (* [plt.title(title)] *)
| sns_heatmap (m : list (list Z)) (mask : list (list bool))
    (* [sns.heatmap(m, annot=True, fmt='d', mask=mask, cbar=False)] *)
| axis_set_minor_ticks (a : xy) (n : nat)
    (* [axis.set_ticks(np.arange(n) + 0.5, minor=True)] *)
| axis_set_ticks (a : xy) (n : nat) (ticklabels : list string)
    (* [axis.set(ticks=np.arange(n), ticklabels=ticklabels)] *)
| xticklabels_set_rotation (angle : nat)
    (* [label.set_rotation(angle)] on every label of [ax.get_xticklabels()] *)
| ax_set_ylabel (l : string)                (* [ax.set_ylabel(l)] *)
| ax_set_xlabel (l : string)                (* [ax.set_xlabel(l)] *)
| ax_grid_minor                             (* [ax.grid(True, which='minor')] *)
| plt_close                                 (* [plt.close()] *)
| to_csv (df : DataFrame) (path : string) (index : bool)
                                            (* [df.to_csv(path, index=index)] *)
| print_frame (df : DataFrame)
    (* [print(df)] with [display.width] and [max_columns] set to [None] *)
| print_series (s : series).                (* [print(s)] *)

End Values.

(** ** The collaborators *)

Class World `{Types} : Type := {
  (* glob2 *)
  glob2_glob : string → list string;
  (* utils *)
  get_run_info : string → result run_info;
  load_run : string → option string → option string →
             result (run_info * model * DataLoader);
  get_run_summary : run_info → option float → result DataFrame;
  (* torch *)
  forward : model → input → result array2;   (* [model(x)], the logits *)
  cuda_error : option exn;
  softmax_row : list float → list float;
  (* floating point; [float_gtb x y]: [x] ranks above [y] in an argmax,
     that is [x > y], or [x] is NaN and [y] is not *)
  float_gtb : float → float → bool;
  nan : float;
  np_mean : list float → float;
  format_percent : float → string;
  (* sklearn.metrics *)
  accuracy_score : list Z → list Z → result float;
  confusion_matrix : list Z → list Z → result (list (list Z));
  (* pandas *)
  cell_leb : cell → cell → bool;
  pivot_table : DataFrame → string → string → list string → result DataFrame;
  frame_mean : DataFrame → result series;
  (* what an observable call raises, if anything *)
  io_raises : event → option exn
}.

Section Plot.
Context `{World}.

(** ** Computations with effects

    A computation takes the events issued so far and returns a value or
    the exception it raised, with the events issued up to that point.
    There is no handler: the script has no [try] statement. *)
Definition M (A : Type) : Type := list event → result A * list event.

Definition ret {A : Type} (a : A) : M A := fun tr => (Ok a, tr).

Definition bind {A B : Type} (m : M A) (f : A → M B) : M B := fun tr =>
  match m tr with
  | (Ok a, tr') => f a tr'
  | (Raise e, tr') => (Raise e, tr')
  end.

#[global] Instance M_ret : MRet M := @ret.
#[global] Instance M_bind : MBind M := fun _ _ f m => bind m f.

(** A call without observable effect. *)
Definition lift {A : Type} (r : result A) : M A := fun tr => (r, tr).

(** An observable call. *)
Definition emit (ev : event) : M unit := fun tr =>
  match io_raises ev with
  | Some e => (Raise e, tr)
  | None => (Ok (), tr ++ [ev])
  end.

(** [for a in l: body(a)]. *)
Fixpoint for_each {A : Type} (l : list A) (body : A → M unit) : M unit :=
  match l with
  | [] => ret ()
  | a :: l' => bind (body a) (fun _ => for_each l' body)
  end.

(** [if c: body]. *)
Definition when (c : bool) (body : M unit) : M unit :=
  if c then body else ret ().

(** ** Arrays *)

Definition row_of (a : array2) (i : nat) : list float :=
  take (ncols a) (drop (i * ncols a) (elems2 a)).

Definition rows_of (a : array2) : list (list float) :=
  map (row_of a) (seq 0 (nrows a)).

(** Index of the first maximum, scanning from the left.  The maximum is
    the one of [float_gtb], the ranking of [np.argmax] and [torch.max]:
    NaN is above every number, so the argmax of a row that holds a NaN is
    the index of its first NaN. *)
Fixpoint argmax_from (best : float) (besti i : nat) (l : list float) : nat :=
  match l with
  | [] => besti
  | x :: l' =>
      if float_gtb x best then argmax_from x i (S i) l'
      else argmax_from best besti (S i) l'
  end.

(** The argmax of a row; [empty] is what the library raises on an empty
    row. *)
Definition argmax_row (empty : exn) (l : list float) : result Z :=
  match l with
  | [] => Raise empty
  | x :: l' => Ok (Z.of_nat (argmax_from x 0 1 l'))
  end.

Definition argmax_rows (empty : exn) (a : array2) : result (list Z) :=
  traverse (argmax_row empty) (rows_of a).

(** [torch.max(a, 1)[1]]. *)
Definition torch_argmax_dim1 : array2 → result (list Z) :=
  argmax_rows (LibraryError "cannot perform reduction function max on tensor with no elements").

(** [np.argmax(a, axis=1)]. *)
Definition np_argmax_axis1 : array2 → result (list Z) :=
  argmax_rows (ValueError "attempt to get argmax of an empty sequence").

(** [F.softmax(a, dim=1)]. *)
Definition softmax_dim1 (a : array2) : array2 :=
  {| nrows := nrows a; ncols := ncols a;
     elems2 := concat (map softmax_row (rows_of a)) |}.

(** [np.concatenate(l, axis=0)] on 2-d arrays. *)
Definition np_concatenate (l : list array2) : result array2 :=
  match l with
  | [] => Raise (ValueError "need at least one array to concatenate")
  | a :: _ =>
      if forallb (fun b => Nat.eqb (ncols b) (ncols a)) l
      then Ok {| nrows := sum_list (map nrows l); ncols := ncols a;
                 elems2 := concat (map elems2 l) |}
      else Raise (ValueError "input array dimensions off the concatenation axis must match")
  end.

(** [a.reshape(d0, d1, -1)]. *)
Definition reshape (a : array2) (d0 d1 : nat) : result array3 :=
  let size := nrows a * ncols a in
  let known := d0 * d1 in
  if (Nat.eqb known 0 || negb (Nat.eqb (size mod known) 0))%bool
  then Raise (ValueError "cannot reshape array")
  else Ok {| dim0 := d0; dim1 := d1; dim2 := size / known;
             elems3 := elems2 a |}.

(** [a.mean(axis=0)] on a 3-d array. *)
Definition mean_axis0 (a : array3) : array2 :=
  let plane := dim1 a * dim2 a in
  {| nrows := dim1 a; ncols := dim2 a;
     elems2 := map (fun i => np_mean (map (fun s => nth (s * plane + i) (elems3 a) nan)
                                           (seq 0 (dim0 a))))
                   (seq 0 plane) |}.

(** ** [predict] *)

(** [t.data[0]] on a 1-d tensor. *)
Definition data0 {A : Type} (t : list A) : result A :=
  match t with
  | [] => Raise IndexError
  | v :: _ => Ok v
  end.

(** [t.cuda()]: the values of the tensor are unchanged, and the move may
    fail.  The device a tensor lives on is not part of the model. *)
Definition to_cuda {A : Type} (t : A) : result A :=
  match cuda_error with
  | Some e => Raise e
  | None => Ok t
  end.

(** The loop of [predict] over the remaining batches, the three lists
    being the accumulators the loop appends to.  [tqdm] only reports
    progress, wrapping a tensor in a [Variable] and moving it back to the
    CPU leave its elements as they are. *)
Fixpoint predict_loop (m : model) (cuda : bool) (bs : list (input * list Z))
    (predictions targets : list Z) (confidences : list array2)
    : result (list Z * list Z * list array2) :=
  match bs with
  | [] => Ok (predictions, targets, confidences)
  | (x, y) :: bs' =>
      x ← (if cuda then to_cuda x else Ok x);
      y ← (if cuda then to_cuda y else Ok y);
      logits ← forward m x;
      let confidence := softmax_dim1 logits in
      y_hat ← torch_argmax_dim1 logits;
      target ← data0 y;
      let targets := targets ++ [target] in
      prediction ← data0 y_hat;
      let predictions := predictions ++ [prediction] in
      let confidences := confidences ++ [confidence] in
      predict_loop m cuda bs' predictions targets confidences
  end.

Definition predict (m : model) (loader : DataLoader) (cuda : value)
    : result (list Z * list Z * list array2) :=
  predict_loop m (truthy cuda) (batches loader) [] [] [].

(** ** pandas *)

(** [pd.concat(frames, ignore_index=True)]: the rows of the frames one
    after the other, under the union of their columns. *)
Definition pd_concat (frames : list DataFrame) : result DataFrame :=
  match frames with
  | [] => Raise (ValueError "No objects to concatenate")
  | _ :: _ =>
      Ok {| columns := foldl (fun acc f => acc ++ filter (fun c => c ∉ acc) (columns f))
                             [] frames;
            rows := concat (map rows frames) |}
  end.

(** The order [sort_values(col, ascending=False)] puts two keys in:
    larger cells first, missing cells (NaN) last. *)
Definition key_desc (a b : option cell) : bool :=
  match a, b with
  | _, None => true
  | None, Some _ => false
  | Some x, Some y => cell_leb y x
  end.

Definition row_desc (col : string) (r1 r2 : gmap string cell) : Prop :=
  Is_true (key_desc (r1 !! col) (r2 !! col)).

#[global] Instance row_desc_dec col : RelDecision (row_desc col) :=
  fun r1 r2 => Is_true_dec (key_desc (r1 !! col) (r2 !! col)).

(** [df.sort_values(col, ascending=False)]. *)
Definition sort_values_desc (df : DataFrame) (col : string) : result DataFrame :=
  if bool_decide (col ∈ columns df)
  then Ok {| columns := columns df; rows := merge_sort (row_desc col) (rows df) |}
  else Raise (KeyError col).

(** [l.remove(x)]: without the first occurrence of [x]. *)
Fixpoint list_remove (x : string) (l : list string) : result (list string) :=
  match l with
  | [] => Raise (ValueError "list.remove(x): x not in list")
  | y :: l' => if String.eqb x y then Ok l' else (cons y) <$> list_remove x l'
  end.

(** ** The five analyses

    [args] is the module-level namespace the functions of the script
    read; [main] receives the same object. *)

Definition train_plot (runs : list string) : M unit :=
  run_infos ← lift (traverse get_run_info runs);
  emit (plt_subplots 2 1);;
  emit (ax_set_title 1 "Evaluation Loss");;
  emit (ax_set_title 2 "Evaluation Accuracy");;
  for_each run_infos (fun i =>
    emit (ax_plot 1 (ri_loss i) (ri_label i));;
    emit (ax_plot 2 (ri_accuracy i) (ri_label i)));;
  emit (ax_set_ylim 2 0 100);;
  emit (plt_legend "best" 6);;
  emit plt_tight_layout;;
  emit (plt_savefig "train_progress.pdf" false).

Definition confusion_plot (args : Namespace) (runs : list string) : M unit :=
  for_each runs (fun run =>
    '(run_info, model, loader) ← lift (load_run run (data args) None);
    let run_dir := ri_run_dir run_info in
    let label := ri_label run_info in
    let params := ri_params run_info in
    let dataset := dataset loader in
    cuda ← lift (getitem params "cuda");
    '(predictions, targets, _) ← lift (predict model loader cuda);
    overall_accuracy ← lift (accuracy_score targets predictions);
    confusion ← lift (confusion_matrix targets predictions);
    let mask := map (map (Z.eqb 0)) confusion in
    emit (plt_figure 30 30);;
    emit (plt_title (label +:+ ": (Overall Accuracy: " +:+ format_percent overall_accuracy));;
    emit (sns_heatmap confusion mask);;
    let classes := action_descriptions dataset in
    for_each [xaxis; yaxis] (fun axis =>
      emit (axis_set_minor_ticks axis (length classes));;
      emit (axis_set_ticks axis (length classes) classes));;
    emit (xticklabels_set_rotation 90);;
    emit plt_tight_layout;;
    emit (ax_set_ylabel "True label");;
    emit (ax_set_xlabel "Predicted label");;
    emit ax_grid_minor;;
    let plot_fname := os_path_join run_dir "confusion.pdf" in
    emit (plt_savefig plot_fname true);;
    emit plt_close).

(** The common tail of [display_status] and [offset_eval]:
    [if args.output: summary.to_csv(args.output, index=False)
     else: print(summary)] under the two display options. *)
Definition write_or_print (args : Namespace) (summary : DataFrame) : M unit :=
  if truthy_str (output args)
  then emit (to_csv summary (default "" (output args)) false)
  else emit (print_frame summary).

Definition display_status (args : Namespace) (runs : list string) : M unit :=
  infos ← lift (traverse get_run_info runs);
  summaries ← lift (traverse (fun i => get_run_summary i None) infos);
  summary ← lift (pd_concat summaries ≫= fun s => sort_values_desc s "best_acc");
  write_or_print args summary.

(** [a // b] on non-negative integers. *)
Definition floordiv (a b : nat) : result nat :=
  if Nat.eqb b 0 then Raise ZeroDivisionError else Ok (a / b).

(** The body of the loop of [offset_eval] for one run, up to the summary
    it appends. *)
Definition offset_eval_run (args : Namespace) (run : string) : result DataFrame :=
  '(run_info, model, loader) ← load_run run (data args) (Some "all");
  let params := ri_params run_info in
  let dataset := dataset loader in
  cuda ← getitem params "cuda";
  '(_, targets, confidences) ← predict model loader cuda;
  n_samples ← floordiv (ds_len dataset) (skip dataset);
  let targets := take n_samples targets in
  confidences ← np_concatenate confidences;
  confidences ← mean_axis0 <$> reshape confidences (skip dataset) n_samples;
  predictions ← np_argmax_axis1 confidences;
  multi_offset_accuracy ← accuracy_score targets predictions;
  get_run_summary run_info (Some multi_offset_accuracy).

Definition offset_eval (args : Namespace) (runs : list string) : M unit :=
  summaries ← lift (traverse (offset_eval_run args) runs);
  summary ← lift (pd_concat summaries ≫= fun s => sort_values_desc s "multi_offset_acc");
  write_or_print args summary.

Definition ablation (runs : list string) : M unit :=
  summaries ← lift (traverse (fun r => get_run_info r ≫= fun i => get_run_summary i None) runs);
  summary ← lift (pd_concat summaries);
  let params := ["bidirectional"; "embed"; "hd"; "layers"] in
  for_each params (fun p =>
    rest ← lift (list_remove p params);
    table ← lift (pivot_table summary "best_acc" p rest);
    table ← lift (frame_mean table);
    emit (print_series table)).

(** ** [main] *)

Definition main (args : Namespace) : M unit :=
  let logs := glob2_glob (os_path_join (run_dir args) "**/log.txt") in
  let runs := map os_path_dirname logs in
  when (String.eqb (type args) "train") (train_plot runs);;
  when (String.eqb (type args) "confusion") (confusion_plot args runs);;
  when (String.eqb (type args) "status") (display_status args runs);;
  when (String.eqb (type args) "multi-eval") (offset_eval args runs);;
  when (String.eqb (type args) "ablation") (ablation runs).

(** The run directories [main] computes: the directory of every file the
    glob pattern matches. *)
Definition runs_of (args : Namespace) : list string :=
  map os_path_dirname (glob2_glob (os_path_join (run_dir args) "**/log.txt")).

(** The dispatch table of the command line interface: the analysis each
    value of [type] stands for. *)
Definition analysis_of (args : Namespace) (t : string) : option (list string → M unit) :=
  if String.eqb t "train" then Some train_plot
  else if String.eqb t "confusion" then Some (confusion_plot args)
  else if String.eqb t "status" then Some (display_status args)
  else if String.eqb t "multi-eval" then Some (offset_eval args)
  else if String.eqb t "ablation" then Some ablation
  else None.

(** The script: parse the command line, then [main]; [None] when the
    parser rejects the command line. *)
Definition script (c : cmdline) : option (M unit) :=
  main <$> parse_args c.

End Plot.

(** ** What a run of an analysis amounts to

    The collaborators without observable effect are functions, so what an
    analysis computes between two observable calls does not depend on the
    events issued so far.  An analysis is then a sequence of blocks, each
    one either the exception its computation raises or the events it
    issues. *)
Section Blocks.
Context `{World}.

(** Issue the events of a list, in order. *)
Definition emits (evs : list event) : M unit := for_each evs emit.

Fixpoint run_blocks (bs : list (result (list event))) : M unit :=
  match bs with
  | [] => ret ()
  | Raise e :: _ => lift (Raise e)
  | Ok evs :: bs' => emits evs ;; run_blocks bs'
  end.

(** No observable call of the list fails. *)
Definition io_ok (evs : list event) : Prop :=
  Forall (fun ev => io_raises ev = None) evs.

(** A computation that only issues the events [evs]. *)
Definition Emits (m : M unit) (evs : list event) : Prop :=
  ∀ tr, m tr = emits evs tr.

(** A computation that amounts to the blocks [bs]. *)
Definition Blocks (m : M unit) (bs : list (result (list event))) : Prop :=
  ∀ tr, m tr = run_blocks bs tr.

(** The calls of [train_plot] once the run infos are there. *)
Definition train_events (run_infos : list run_info) : list event :=
  [plt_subplots 2 1;
   ax_set_title 1 "Evaluation Loss";
   ax_set_title 2 "Evaluation Accuracy"]
  ++ flat_map (fun i => [ax_plot 1 (ri_loss i) (ri_label i);
                         ax_plot 2 (ri_accuracy i) (ri_label i)]) run_infos
  ++ [ax_set_ylim 2 0 100;
      plt_legend "best" 6;
      plt_tight_layout;
      plt_savefig "train_progress.pdf" false].

(** The calls of [confusion_plot] for one run, given its confusion
    matrix and its overall accuracy. *)
Definition confusion_events (i : run_info) (ds : Dataset)
    (overall_accuracy : float) (confusion : list (list Z)) : list event :=
  let classes := action_descriptions ds in
  [plt_figure 30 30;
   plt_title (ri_label i +:+ ": (Overall Accuracy: " +:+ format_percent overall_accuracy);
   sns_heatmap confusion (map (map (Z.eqb 0)) confusion);
   axis_set_minor_ticks xaxis (length classes);
   axis_set_ticks xaxis (length classes) classes;
   axis_set_minor_ticks yaxis (length classes);
   axis_set_ticks yaxis (length classes) classes;
   xticklabels_set_rotation 90;
   plt_tight_layout;
   ax_set_ylabel "True label";
   ax_set_xlabel "Predicted label";
   ax_grid_minor;
   plt_savefig (os_path_join (ri_run_dir i) "confusion.pdf") true;
   plt_close].

(** What [confusion_plot] evaluates on one run: the predictions and the
    targets of [predict] on the loader of the run, their accuracy score
    and their confusion matrix. *)
Definition confusion_inputs (args : Namespace) (run : string)
    : result (run_info * Dataset * float * list (list Z)) :=
  '(run_info, model, loader) ← load_run run (data args) None;
  cuda ← getitem (ri_params run_info) "cuda";
  '(predictions, targets, _) ← predict model loader cuda;
  overall_accuracy ← accuracy_score targets predictions;
  confusion ← confusion_matrix targets predictions;
  Ok (run_info, dataset loader, overall_accuracy, confusion).

Definition confusion_block (args : Namespace) (run : string) : result (list event) :=
  (fun '(i, ds, acc, cm) => confusion_events i ds acc cm) <$> confusion_inputs args run.

(** The run summary table of the status mode. *)
Definition status_table (runs : list string) : result DataFrame :=
  infos ← traverse get_run_info runs;
  summaries ← traverse (fun i => get_run_summary i None) infos;
  summary ← pd_concat summaries;
  sort_values_desc summary "best_acc".

(** The run summary table of the multi-eval mode. *)
Definition offset_table (args : Namespace) (runs : list string) : result DataFrame :=
  summaries ← traverse (offset_eval_run args) runs;
  summary ← pd_concat summaries;
  sort_values_desc summary "multi_offset_acc".

(** The one observable call of the status and multi-eval modes. *)
Definition output_event (args : Namespace) (summary : DataFrame) : event :=
  if truthy_str (output args)
  then to_csv summary (default "" (output args)) false
  else print_frame summary.

(** The concatenated summaries of the ablation mode. *)
Definition ablation_summary (runs : list string) : result DataFrame :=
  summaries ← traverse (fun r => get_run_info r ≫= fun i => get_run_summary i None) runs;
  pd_concat summaries.

(** The table of the ablation mode for the hyper-parameter [p]: the mean
    of the pivot of [best_acc] with [p] in the columns and the
    hyper-parameters [rest] in the index. *)
Definition ablation_table (summary : DataFrame) (p : string) (rest : list string)
    : result series :=
  table ← pivot_table summary "best_acc" p rest;
  frame_mean table.

Definition ablation_blocks (summary : DataFrame) : list (result (list event)) :=
  map (fun '(p, rest) => (fun t => [print_series t]) <$> ablation_table summary p rest)
      [("bidirectional", ["embed"; "hd"; "layers"]);
       ("embed", ["bidirectional"; "hd"; "layers"]);
       ("hd", ["bidirectional"; "embed"; "layers"]);
       ("layers", ["bidirectional"; "embed"; "hd"])].

(** What one run contributes to the figures of the confusion mode. *)
Definition confusion_of (args : Namespace) (run : string)
    (fig : string * list (list Z)) : Prop :=
  ∃ i m loader cuda predictions targets confidences acc,
    load_run run (data args) None = Ok (i, m, loader) ∧
    getitem (ri_params i) "cuda" = Ok cuda ∧
    predict m loader cuda = Ok (predictions, targets, confidences) ∧
    confusion_matrix targets predictions = Ok (snd fig) ∧
    accuracy_score targets predictions = Ok acc ∧
    fst fig = ri_label i +:+ ": (Overall Accuracy: " +:+ format_percent acc.

(** *** Observations on the events *)

(** The file names handed to [savefig]. *)
Definition saved_figures (evs : list event) : list string :=
  omap (fun ev => match ev with plt_savefig f _ => Some f | _ => None end) evs.

(** The files the events write: figures and CSV files. *)
Definition written_files (evs : list event) : list string :=
  omap (fun ev => match ev with
                  | plt_savefig f _ => Some f
                  | to_csv _ f _ => Some f
                  | _ => None
                  end) evs.

(** What the events print. *)
Definition is_print (ev : event) : bool :=
  match ev with
  | print_frame _ | print_series _ => true
  | _ => false
  end.

(** The grids of subplots created. *)
Definition subplot_grids (evs : list event) : list (nat * nat) :=
  omap (fun ev => match ev with plt_subplots r c => Some (r, c) | _ => None end) evs.

(** The series printed. *)
Definition printed_series (evs : list event) : list series :=
  omap (fun ev => match ev with print_series t => Some t | _ => None end) evs.

(** The titles given to the axes. *)
Definition axes_titles (evs : list event) : list (nat * string) :=
  omap (fun ev => match ev with ax_set_title a t => Some (a, t) | _ => None end) evs.

(** The curves drawn on the axes [ax], with their labels. *)
Definition curves_on (ax : nat) (evs : list event) : list (list float * string) :=
  omap (fun ev => match ev with
                  | ax_plot a ys l => if Nat.eqb a ax then Some (ys, l) else None
                  | _ => None
                  end) evs.

(** The limits of the y axis of the axes [ax] after the events: those of
    the last [set_ylim], which also switches autoscaling off. *)
Definition ylim_of (ax : nat) (evs : list event) : option (Z * Z) :=
  last (omap (fun ev => match ev with
                        | ax_set_ylim a lo hi => if Nat.eqb a ax then Some (lo, hi) else None
                        | _ => None
                        end) evs).

(** The heat maps drawn, each with the title of its figure. *)
Fixpoint heatmaps (title : string) (evs : list event) : list (string * list (list Z)) :=
  match evs with
  | [] => []
  | plt_figure _ _ :: evs' => heatmaps "" evs'
  | plt_title t :: evs' => heatmaps t evs'
  | sns_heatmap m _ :: evs' => (title, m) :: heatmaps title evs'
  | _ :: evs' => heatmaps title evs'
  end.

End Blocks.

(** ** The prediction loop and the multi-offset accuracy, step by step *)
Section MultiOffset.
Context `{World}.

(** What one iteration of the loop of [predict] appends to
    [predictions], [targets] and [confidences]. *)
Definition predict_batch (m : model) (cuda : bool) (b : input * list Z)
    : result (Z * Z * array2) :=
  let '(x, y) := b in
  x ← (if cuda then to_cuda x else Ok x);
  y ← (if cuda then to_cuda y else Ok y);
  logits ← forward m x;
  y_hat ← torch_argmax_dim1 logits;
  target ← data0 y;
  prediction ← data0 y_hat;
  Ok (prediction, target, softmax_dim1 logits).

(** [a.reshape(d0, d1, d2)], every dimension given. *)
Definition reshape_to (a : array2) (d0 d1 d2 : nat) : result array3 :=
  if Nat.eqb (nrows a * ncols a) (d0 * d1 * d2)
  then Ok {| dim0 := d0; dim1 := d1; dim2 := d2; elems3 := elems2 a |}
  else Raise (ValueError "cannot reshape array").

(** The multi-offset accuracy as the specification words it: the targets
    cut to [n_samples = len(dataset) // dataset.skip], the concatenated
    confidences reshaped to [(dataset.skip, n_samples, num_classes)] and
    averaged over the first axis, the class of largest average as the
    prediction, and [accuracy_score] of the two. *)
Definition multi_offset_accuracy_spec (ds : Dataset) (targets : list Z)
    (confidences : list array2) : result float :=
  n_samples ← floordiv (ds_len ds) (skip ds);
  let targets := take n_samples targets in
  confidences ← np_concatenate confidences;
  let num_classes := ncols confidences in
  confidences ← mean_axis0 <$> reshape_to confidences (skip ds) n_samples num_classes;
  predictions ← np_argmax_axis1 confidences;
  accuracy_score targets predictions.

(** The confidences of the sample [j], averaged over the [d0] offsets:
    the offset [s] of the sample [j] is the row [s * n + j] of [a]. *)
Definition averaged_confidence (a : array2) (d0 n j : nat) : list float :=
  map (fun k => np_mean (map (fun s => nth k (row_of a (s * n + j)) nan) (seq 0 d0)))
      (seq 0 (ncols a)).

(** The class of largest averaged confidence of every sample. *)
Definition multi_offset_predictions (a : array2) (d0 n : nat) : result (list Z) :=
  traverse (fun j => argmax_row (ValueError "attempt to get argmax of an empty sequence")
                                (averaged_confidence a d0 n j))
           (seq 0 n).

End MultiOffset.

(** ** A small concrete world

    Numbers are integers, a model input is the table of logits the model
    returns for it, and the file system holds two runs under [runs/].  The
    numeric functions stand in for the real ones: the examples below rest
    on the shapes and the order of the calls, not on the numbers. *)
Module Demo.

#[global] Instance types : Types := {|
  float := Z;
  input := list (list Z);
  model := unit;
  checkpoint := unit;
  cell := Z;
  series := list Z
|}.

Definition info (run : string) : run_info := {|
  ri_run_dir := run;
  ri_loss := [3; 2]%Z;
  ri_accuracy := [50; 70]%Z;
  ri_label := run;
  ri_best_model := ();
  ri_params := {[ "cuda" := VBool false ]}
|}.

(** Six single-sample batches over two classes. *)
Definition loader6 (skip : nat) : DataLoader := {|
  batches := [ ([[5; 1]], [0]); ([[1; 5]], [1]); ([[2; 6]], [1]);
               ([[4; 1]], [0]); ([[1; 2]], [0]); ([[0; 9]], [1]) ]%Z;
  dataset := {| ds_len := 6; skip := skip; action_descriptions := ["walk"; "run"] |}
|}.

(** One batch of two samples. *)
Definition loader_pair : DataLoader := {|
  batches := [ ([[1; 5]; [7; 2]], [1; 0]) ]%Z;
  dataset := {| ds_len := 2; skip := 1; action_descriptions := ["walk"; "run"] |}
|}.

Definition best_acc_of (run : string) : Z :=
  if String.eqb run "runs/a" then 70 else 90.

Definition summary_of (i : run_info) (acc : option Z) : DataFrame := {|
  columns := ["label"; "best_acc"; "multi_offset_acc"];
  rows := [ <[ "best_acc" := best_acc_of (ri_run_dir i) ]>
            (match acc with
             | Some a => {[ "multi_offset_acc" := a ]}
             | None => ∅
             end) ]
|}.

Definition count_equal (l k : list Z) : Z :=
  Z.of_nat (length (filter (fun p => fst p = snd p) (zip l k))).

#[global] Instance world : World := {|
  glob2_glob pat :=
    if String.eqb pat "runs/**/log.txt"
    then ["runs/a/log.txt"; "runs/b/log.txt"] else [];
  get_run_info run := Ok (info run);
  load_run run d off :=
    Ok (info run, (),
        if String.eqb run "pair" then loader_pair
        else if String.eqb run "runs/a" then loader6 2 else loader6 4);
  get_run_summary i acc := Ok (summary_of i acc);
  forward _ x := Ok {| nrows := length x; ncols := length (concat (take 1 x));
                       elems2 := concat x |};
  cuda_error := Some (LibraryError "no CUDA device");
  softmax_row r := r;
  float_gtb := Z.gtb;
  nan := 0%Z;
  np_mean l := (foldr Z.add 0 l / Z.of_nat (length l))%Z;
  format_percent z := "";
  accuracy_score ts ps :=
    if Nat.eqb (length ts) (length ps)
    then Ok (100 * count_equal ts ps / Z.of_nat (length ts))%Z
    else Raise (ValueError "inconsistent numbers of samples");
  confusion_matrix ts ps := Ok [[count_equal ts ps]];
  cell_leb := Z.leb;
  pivot_table df v c idx := Ok df;
  frame_mean df := Ok [Z.of_nat (length (rows df))];
  io_raises _ := None
|}.

(** Four command lines, parsed. *)
Definition status_args : Namespace :=
  {| type := "status"; run_dir := "runs/"; data := None; output := None |}.
Definition confusion_args : Namespace :=
  {| type := "confusion"; run_dir := "runs/"; data := None; output := None |}.
Definition multi_eval_args : Namespace :=
  {| type := "multi-eval"; run_dir := "runs/"; data := None; output := None |}.
Definition ablation_args : Namespace :=
  {| type := "ablation"; run_dir := "runs/"; data := None; output := Some "out.csv" |}.

End Demo.

(** ** Shapes, figures and a second concrete world *)
Section Shapes.
Context `{World}.

(** An array whose buffer holds as many elements as its shape says. *)
Definition wf2 (a : array2) : Prop :=
  length (elems2 a) = nrows a * ncols a.

Definition wf3 (a : array3) : Prop :=
  length (elems3 a) = dim0 a * dim1 a * dim2 a.

(** The figures [plt.figure] opens and [plt.close] closes. *)
Definition opened_figures (evs : list event) : nat :=
  length (omap (fun ev => match ev with plt_figure _ _ => Some () | _ => None end) evs).

Definition closed_figures (evs : list event) : nat :=
  length (omap (fun ev => match ev with plt_close => Some () | _ => None end) evs).

(** The calls of [confusion_plot] for one run, given what it evaluated on
    the run. *)
Definition confusion_events_of (x : run_info * Dataset * float * list (list Z))
    : list event :=
  let '(i, ds, acc, cm) := x in confusion_events i ds acc cm.

(** Where the figure of a run goes. *)
Definition confusion_file (x : run_info * Dataset * float * list (list Z)) : string :=
  let '(i, _, _, _) := x in os_path_join (ri_run_dir i) "confusion.pdf".

End Shapes.

(** A world with a GPU, a run whose log cannot be read, loaders without
    batches or with a zero [skip], and a pivot that fails on [embed]. *)
Module Demo2.

Definition loader_named (run : string) : DataLoader :=
  if String.eqb run "empty"
  then {| batches := [];
          dataset := {| ds_len := 0; skip := 2; action_descriptions := [] |} |}
  else if String.eqb run "skip0" then Demo.loader6 0
  else if String.eqb run "short" then
    {| batches := [ ([[5; 1]], [0]) ]%Z;
       dataset := {| ds_len := 1; skip := 2; action_descriptions := ["walk"; "run"] |} |}
  else if String.eqb run "pair" then Demo.loader_pair
  else Demo.loader6 2.

Definition info_named (run : string) : run_info :=
  if String.eqb run "nocuda"
  then {| ri_run_dir := run; ri_loss := []; ri_accuracy := []; ri_label := run;
          ri_best_model := (); ri_params := ∅ |}
  else Demo.info run.

Definition world : @World Demo.types := {|
  glob2_glob pat :=
    if String.eqb pat "runs/**/log.txt"
    then ["runs/a/log.txt"; "runs/b/log.txt"] else [];
  get_run_info run :=
    if String.eqb run "broken" then Raise (LibraryError "no log.txt")
    else Ok (info_named run);
  load_run run d off :=
    if String.eqb run "broken" then Raise (LibraryError "no log.txt")
    else Ok (info_named run, (), loader_named run);
  get_run_summary i acc :=
    if String.eqb (ri_run_dir i) "nosummary" then Raise (LibraryError "no summary")
    else if String.eqb (ri_run_dir i) "bare"
    then Ok {| columns := ["label"]; rows := [∅] |}
    else Ok (Demo.summary_of i acc);
  forward _ x := Ok {| nrows := length x; ncols := length (concat (take 1 x));
                       elems2 := concat x |};
  cuda_error := None;
  softmax_row r := r;
  float_gtb := Z.gtb;
  nan := 0%Z;
  np_mean l := (foldr Z.add 0 l / Z.of_nat (length l))%Z;
  format_percent z := "";
  accuracy_score ts ps :=
    if Nat.eqb (length ts) (length ps)
    then Ok (100 * Demo.count_equal ts ps / Z.of_nat (length ts))%Z
    else Raise (ValueError "inconsistent numbers of samples");
  confusion_matrix ts ps := Ok [[Demo.count_equal ts ps]];
  cell_leb := Z.leb;
  pivot_table df v c idx :=
    if String.eqb c "embed" then Raise (LibraryError "no column embed") else Ok df;
  frame_mean df := Ok [Z.of_nat (length (rows df))];
  io_raises _ := None
|}.

Definition args_of (t d : string) : Namespace :=
  {| type := t; run_dir := d; data := None; output := None |}.

End Demo2.

(** A world whose numbers may be NaN.  [None] is NaN, and the argmax ranks
    it above every number. *)
Module DemoNaN.

Definition types : Types := {|
  float := option Z;
  input := list (list (option Z));
  model := unit;
  checkpoint := unit;
  cell := option Z;
  series := list (option Z)
|}.

(** [x > y], or [x] is NaN and [y] is not. *)
Definition nan_gtb (x y : option Z) : bool :=
  match x, y with
  | _, None => false
  | None, Some _ => true
  | Some a, Some b => Z.gtb a b
  end.

Definition info (run : string) : @run_info types :=
  @Build_run_info types run [] [] run () {[ "cuda" := VBool false ]}.

(** Two single-sample batches over three classes; the first holds a NaN. *)
Definition loader : @DataLoader types :=
  @Build_DataLoader types
    [ ([[Some 1; None; Some 3]], [2]); ([[Some 4; Some 7; Some 7]], [1]) ]%Z
    {| ds_len := 2; skip := 1; action_descriptions := ["walk"; "run"; "jump"] |}.

Definition world : @World types :=
  @Build_World types
    (fun pat => [])
    (fun run => Ok (info run))
    (fun run d off => Ok (info run, (), loader))
    (fun i acc => Ok (@Build_DataFrame types ["multi_offset_acc"]
                        [match acc with
                         | Some a => {[ "multi_offset_acc" := a ]}
                         | None => ∅
                         end]))
    (fun _ x => Ok (@Build_array2 types (length x) (length (concat (take 1 x)))
                      (concat x)))
    None
    (fun r => r)
    nan_gtb
    None
    (fun l => match mapM id l with
              | Some zs => Some (foldr Z.add 0 zs / Z.of_nat (length zs))%Z
              | None => None
              end)
    (fun z => "")
    (fun ts ps =>
       if Nat.eqb (length ts) (length ps)
       then Ok (Some (100 * Demo.count_equal ts ps / Z.of_nat (length ts))%Z)
       else Raise (ValueError "inconsistent numbers of samples"))
    (fun ts ps => Ok [[Demo.count_equal ts ps]])
    (fun x y => negb (nan_gtb x y))
    (fun df v c idx => Ok df)
    (fun df => Ok [Some (Z.of_nat (length (rows df)))])
    (fun _ => None).

End DemoNaN.

(** * Properties *)

Section MonadFacts.
Context `{World}.

Lemma bind_Ok {A B : Type} (m : M A) (f : A → M B) tr b tr' :
  (m ≫= f) tr = (Ok b, tr') ↔
  ∃ a tr1, m tr = (Ok a, tr1) ∧ f a tr1 = (Ok b, tr').
Proof.
  unfold mbind, M_bind, bind. split.
  - destruct (m tr) as [[a|e] tr1]; [eauto | discriminate].
  - intros (a & tr1 & -> & Hf). exact Hf.
Qed.


Lemma bind_unit_ret (m : M unit) tr : (m ≫= fun _ => ret ()) tr = m tr.
Proof.
  unfold mbind, M_bind, bind, ret.
  destruct (m tr) as [[[]|e] tr1]; reflexivity.
Qed.

Lemma ret_bind {A B : Type} (a : A) (f : A → M B) tr : (ret a ≫= f) tr = f a tr.
Proof. reflexivity. Qed.

Lemma lift_Ok {A : Type} (r : result A) tr a tr' :
  lift r tr = (Ok a, tr') ↔ r = Ok a ∧ tr' = tr.
Proof. unfold lift. split; [intros [= -> ->]; auto | intros [-> ->]; auto]. Qed.

Lemma emit_Ok ev tr u tr' :
  emit ev tr = (Ok u, tr') ↔ io_raises ev = None ∧ tr' = tr ++ [ev].
Proof.
  unfold emit. destruct (io_raises ev); split.
  - discriminate.
  - intros [? _]; discriminate.
  - intros [= <-]; auto.
  - intros [_ ->]. destruct u; reflexivity.
Qed.

Lemma result_bind_Ok {A B : Type} (r : result A) (f : A → result B) b :
  r ≫= f = Ok b ↔ ∃ a, r = Ok a ∧ f a = Ok b.
Proof.
  unfold mbind, result_bind. split.
  - destruct r; [eauto | discriminate].
  - intros (a & -> & Hf). exact Hf.
Qed.

Lemma result_fmap_Ok {A B : Type} (r : result A) (f : A → B) b :
  f <$> r = Ok b ↔ ∃ a, r = Ok a ∧ b = f a.
Proof.
  unfold fmap, result_fmap. split.
  - destruct r; [intros [= <-]; eauto | discriminate].
  - intros (a & -> & ->). reflexivity.
Qed.

End MonadFacts.

Section Dispatch.
Context `{World}.

Lemma parse_args_Some c args :
  parse_args c = Some args →
  type args ∈ choices ∧ head (positionals c) = Some (type args) ∧
  data args = opt_data c ∧ output args = opt_output c ∧
  (positionals c = [type args] ∧ run_dir args = "runs/" ∨
   positionals c = [type args; run_dir args]).
Proof.
  unfold parse_args.
  destruct (positionals c) as [|t [|d [|]]] eqn:Hp; try discriminate;
    case_bool_decide; try discriminate; intros [= <-]; simpl; auto 10.
Qed.

Lemma main_choice args :
  type args ∈ choices →
  ∃ f, analysis_of args (type args) = Some f ∧
       ∀ tr, main args tr = f (runs_of args) tr.
Proof.
  intros Hin. unfold main, analysis_of. fold (runs_of args).
  unfold choices in Hin.
  repeat (apply elem_of_cons in Hin as [-> | Hin]); [..| by apply elem_of_nil in Hin];
    simpl; eexists; (split; [reflexivity|]); intros tr;
    cbv [when mbind M_bind bind ret]; repeat case_match; simplify_eq;
    repeat match goal with u : () |- _ => destruct u end; reflexivity.
Qed.

Lemma analysis_of_choice args t f :
  analysis_of args t = Some f → t ∈ choices.
Proof.
  unfold analysis_of, choices.
  destruct (String.eqb_spec t "train") as [-> | _]; [intros _; set_solver |].
  destruct (String.eqb_spec t "confusion") as [-> | _]; [intros _; set_solver |].
  destruct (String.eqb_spec t "status") as [-> | _]; [intros _; set_solver |].
  destruct (String.eqb_spec t "multi-eval") as [-> | _]; [intros _; set_solver |].
  destruct (String.eqb_spec t "ablation") as [-> | _]; [intros _; set_solver |].
  discriminate.
Qed.

Lemma main_mode args t f :
  type args = t → analysis_of args t = Some f →
  ∀ tr, main args tr = f (runs_of args) tr.
Proof.
  intros <- Hf tr.
  destruct (main_choice args (analysis_of_choice _ _ _ Hf)) as (f' & Hf' & ->).
  rewrite Hf in Hf'. by injection Hf' as <-.
Qed.

(** C1: the parser accepts exactly the five values of [type], and [main]
    runs, for each of them, the one analysis the value stands for: [train]
    runs [train_plot], [confusion] runs [confusion_plot], [status] runs
    [display_status], [multi-eval] runs [offset_eval] and [ablation] runs
    [ablation]. *)
Theorem main_dispatch (c : cmdline) :
  (∀ t rest, positionals c = t :: rest → t ∉ choices → parse_args c = None) ∧
  (∀ args, parse_args c = Some args →
     type args ∈ choices ∧ head (positionals c) = Some (type args) ∧
     ∃ f, analysis_of args (type args) = Some f ∧
          ∀ tr, main args tr = f (runs_of args) tr).
Proof.
  split.
  - intros t rest Hp Hnot. unfold parse_args. rewrite Hp.
    destruct rest as [|d [|]]; try reflexivity;
      case_bool_decide; [contradiction | reflexivity | contradiction | reflexivity].
  - intros args Hparse.
    destruct (parse_args_Some _ _ Hparse) as (Hin & Hhd & _).
    split; [exact Hin | split; [exact Hhd |]].
    exact (main_choice args Hin).
Qed.
End Dispatch.

Section Paths.

Lemma list_ascii_of_string_app (a b : string) :
  list_ascii_of_string (a +:+ b) = list_ascii_of_string a ++ list_ascii_of_string b.
Proof. induction a as [|c a IH]; simpl; [reflexivity | by rewrite IH]. Qed.

Lemma lstrip_while_app_stop (p : ascii → bool) (l : list ascii) (c : ascii) k :
  forallb p l = true → p c = false → lstrip_while p (l ++ c :: k) = c :: k.
Proof.
  induction l as [|x l IH]; simpl; intros Hl Hc.
  - by rewrite Hc.
  - apply andb_prop in Hl as [-> Hl]. by apply IH.
Qed.

Lemma forallb_rev {A : Type} (p : A → bool) (l : list A) :
  forallb p (rev l) = forallb p l.
Proof.
  induction l as [|x l IH]; simpl; [reflexivity|].
  rewrite forallb_app, IH. simpl. rewrite andb_true_r. apply andb_comm.
Qed.

(** The directory of a file [f] directly under a directory [d]. *)
Lemma os_path_dirname_file (d f : string) :
  d ≠ "" → endswith_sep d = false →
  forallb (fun c => negb (is_sep c)) (list_ascii_of_string f) = true →
  os_path_dirname (d +:+ "/" +:+ f) = d.
Proof.
  intros Hd Hend Hf. unfold os_path_dirname, rstrip_while.
  rewrite !list_ascii_of_string_app. simpl (list_ascii_of_string "/").
  rewrite !rev_app_distr, <- app_assoc. simpl (rev [_] ++ _).
  rewrite (lstrip_while_app_stop _ _ "/"%char);
    [| by rewrite forallb_rev | reflexivity].
  unfold endswith_sep in Hend.
  destruct (rev (list_ascii_of_string d)) as [|c r] eqn:Hrev.
  { exfalso. apply Hd. apply (f_equal (@rev ascii)) in Hrev.
    rewrite rev_involutive in Hrev. simpl in Hrev.
    rewrite <- (string_of_list_ascii_of_string d), Hrev. reflexivity. }
  assert (Hla : list_ascii_of_string d = rev r ++ [c]).
  { rewrite <- (rev_involutive (list_ascii_of_string d)), Hrev. reflexivity. }
  simpl (rev ("/"%char :: c :: r)).
  rewrite !forallb_app. simpl. rewrite Hend, andb_false_r. simpl.
  rewrite !rev_app_distr. simpl. rewrite rev_involutive, Hend. simpl.
  rewrite <- Hla. apply string_of_list_ascii_of_string.
Qed.

Lemma os_path_join_pattern (d : string) :
  os_path_join d "**/log.txt" =
  if (String.eqb d "" || endswith_sep d)%bool then d +:+ "**/log.txt"
  else d +:+ "/**/log.txt".
Proof. unfold os_path_join. simpl. destruct (_ || _)%bool; reflexivity. Qed.

End Paths.

Section Runs.
Context `{World}.

(** C2: the run directories handed to the analysis are the directories
    of the files that the recursive pattern [**/log.txt], joined to
    [run_dir], matches; [run_dir] is the second positional argument and
    ['runs/'] when there is none. *)
Theorem main_runs (c : cmdline) (args : Namespace) :
  parse_args c = Some args →
  (positionals c = [type args] ∧ run_dir args = "runs/" ∨
   positionals c = [type args; run_dir args]) ∧
  (∃ f, analysis_of args (type args) = Some f ∧
        ∀ tr, main args tr =
              f (map os_path_dirname
                     (glob2_glob (os_path_join (run_dir args) "**/log.txt"))) tr) ∧
  (∀ r, r ∈ runs_of args ↔
        ∃ l, l ∈ glob2_glob (os_path_join (run_dir args) "**/log.txt") ∧
             r = os_path_dirname l) ∧
  os_path_join (run_dir args) "**/log.txt" =
    (if (String.eqb (run_dir args) "" || endswith_sep (run_dir args))%bool
     then run_dir args +:+ "**/log.txt"
     else run_dir args +:+ "/**/log.txt") ∧
  (∀ d, d ≠ "" → endswith_sep d = false →
        os_path_dirname (d +:+ "/" +:+ "log.txt") = d).
Proof.
  intros Hparse.
  destruct (parse_args_Some _ _ Hparse) as (Hin & _ & _ & _ & Hpos).
  split; [exact Hpos|]. split; [exact (main_choice args Hin)|].
  split; [| split; [apply os_path_join_pattern|]].
  - intros r. unfold runs_of. rewrite list_elem_of_fmap.
    split; intros (l & H1 & H2); eauto.
  - intros d Hd Hend. by apply os_path_dirname_file.
Qed.

End Runs.

Section BlockFacts.
Context `{World}.

Lemma emit_bind {A : Type} ev (f : unit → M A) tr :
  (emit ev ≫= f) tr =
  match io_raises ev with
  | Some e => (Raise e, tr)
  | None => f () (tr ++ [ev])
  end.
Proof. unfold mbind, M_bind, bind, emit. by destruct (io_raises ev). Qed.

Lemma emits_cons ev evs tr :
  emits (ev :: evs) tr =
  match io_raises ev with
  | Some e => (Raise e, tr)
  | None => emits evs (tr ++ [ev])
  end.
Proof. unfold emits. simpl. unfold bind, emit. by destruct (io_raises ev). Qed.

Lemma emits_Ok evs tr u tr' :
  emits evs tr = (Ok u, tr') ↔ io_ok evs ∧ tr' = tr ++ evs.
Proof.
  revert tr. induction evs as [|ev evs IH]; intros tr.
  - unfold emits, io_ok. simpl. unfold ret. rewrite app_nil_r. destruct u.
    split; [intros [= <-]; auto | intros [_ ->]; auto].
  - rewrite emits_cons. unfold io_ok. rewrite Forall_cons.
    destruct (io_raises ev) eqn:Hev.
    + split; [discriminate | intros [[? _] _]; discriminate].
    + rewrite IH, <- app_assoc. simpl. unfold io_ok. tauto.
Qed.

Lemma emits_any evs tr r tr' :
  emits evs tr = (r, tr') → ∃ new, tr' = tr ++ new ∧ new `prefix_of` evs.
Proof.
  revert tr. induction evs as [|ev evs IH]; intros tr.
  - unfold emits. simpl. unfold ret. intros [= <- <-].
    exists []. by rewrite app_nil_r.
  - rewrite emits_cons. destruct (io_raises ev).
    + intros [= <- <-]. exists []. rewrite app_nil_r. split; [done | apply prefix_nil].
    + intros (new & -> & Hpre)%IH. exists (ev :: new).
      rewrite <- app_assoc. split; [done | by apply prefix_cons].
Qed.

Lemma Emits_emit ev : Emits (emit ev) [ev].
Proof.
  intros tr. rewrite emits_cons. unfold emit.
  by destruct (io_raises ev).
Qed.

Lemma Emits_ret : Emits (ret ()) [].
Proof. intros tr. reflexivity. Qed.

Lemma emits_app evs1 evs2 tr :
  emits (evs1 ++ evs2) tr = (emits evs1 ≫= fun _ => emits evs2) tr.
Proof.
  revert tr. induction evs1 as [|ev evs1 IH]; intros tr; [reflexivity|].
  simpl. rewrite emits_cons. unfold mbind, M_bind, bind in *.
  rewrite emits_cons. destruct (io_raises ev); [reflexivity | apply IH].
Qed.

Lemma Emits_bind m1 m2 evs1 evs2 :
  Emits m1 evs1 → Emits m2 evs2 → Emits (m1 ≫= fun _ => m2) (evs1 ++ evs2).
Proof.
  intros H1 H2 tr. rewrite emits_app. unfold mbind, M_bind, bind.
  rewrite H1. destruct (emits evs1 tr) as [[[]|e] tr1]; [apply H2 | reflexivity].
Qed.

Lemma Emits_for_each {A : Type} (l : list A) body evs :
  (∀ a, Emits (body a) (evs a)) → Emits (for_each l body) (flat_map evs l).
Proof.
  intros Hbody. induction l as [|a l IH]; [apply Emits_ret|].
  simpl. apply (Emits_bind _ _ _ _ (Hbody a) IH).
Qed.

Lemma Blocks_Emits m evs : Emits m evs → Blocks m [Ok evs].
Proof.
  intros Hm tr. simpl. unfold mbind, M_bind, bind, ret. rewrite <- Hm.
  by destruct (m tr) as [[[]|e] tr1].
Qed.

Lemma run_blocks_app bs1 bs2 tr :
  run_blocks (bs1 ++ bs2) tr = (run_blocks bs1 ≫= fun _ => run_blocks bs2) tr.
Proof.
  revert tr. induction bs1 as [|[evs|e] bs1 IH]; intros tr; try reflexivity.
  simpl. unfold mbind, M_bind, bind in *.
  destruct (emits evs tr) as [[[]|e] tr1]; [apply IH | reflexivity].
Qed.

Lemma Blocks_for_each {A : Type} (l : list A) body bs :
  (∀ a, Blocks (body a) (bs a)) → Blocks (for_each l body) (flat_map bs l).
Proof.
  intros Hbody. induction l as [|a l IH]; intros tr; [reflexivity|].
  simpl. rewrite run_blocks_app. unfold mbind, M_bind, bind.
  rewrite Hbody. destruct (run_blocks (bs a) tr) as [[[]|e] tr1]; [apply IH | reflexivity].
Qed.

Lemma Blocks_lift {A : Type} (r : result A) (f : A → M unit) bs :
  (∀ a, r = Ok a → Blocks (f a) (bs a)) →
  Blocks (lift r ≫= f) (match r with Ok a => bs a | Raise e => [Raise e] end).
Proof.
  intros Hf tr. unfold mbind, M_bind, bind, lift.
  destruct r as [a|e]; [by apply Hf | reflexivity].
Qed.

(** The events of the blocks that are there, and the first exception. *)
Lemma run_blocks_Ok bs tr u tr' :
  run_blocks bs tr = (Ok u, tr') ↔
  ∃ evss, bs = map Ok evss ∧ io_ok (concat evss) ∧ tr' = tr ++ concat evss.
Proof.
  revert tr. induction bs as [|[evs|e] bs IH]; intros tr.
  - simpl. unfold ret. destruct u. split.
    + intros [= <-]. exists []. simpl. rewrite app_nil_r.
      split; [done | split; [constructor | done]].
    + intros (evss & Hevss & _ & ->). destruct evss; [|discriminate].
      simpl. by rewrite app_nil_r.
  - simpl. rewrite bind_Ok. split.
    + intros ([] & tr1 & [Hok ->]%emits_Ok & (evss & -> & Hok' & ->)%IH).
      exists (evs :: evss). simpl. rewrite app_assoc.
      split; [done | split; [by apply Forall_app | done]].
    + intros (evss & Hevss & Hok & ->). destruct evss as [|evs' evss]; [discriminate|].
      injection Hevss as <- ->. simpl in Hok. apply Forall_app in Hok as [Hok Hok'].
      exists (), (tr ++ evs). rewrite emits_Ok, IH. split; [done|].
      exists evss. simpl. by rewrite app_assoc.
  - simpl. unfold lift. split; [discriminate|].
    intros (evss & Hevss & _). destruct evss; discriminate.
Qed.

Lemma run_blocks_any bs tr r tr' :
  run_blocks bs tr = (r, tr') →
  ∃ new, tr' = tr ++ new ∧ ∀ ev, ev ∈ new → ∃ evs, Ok evs ∈ bs ∧ ev ∈ evs.
Proof.
  revert tr. induction bs as [|[evs|e] bs IH]; intros tr.
  - simpl. unfold ret. intros [= <- <-]. exists []. rewrite app_nil_r.
    split; [done | by intros ev ?%elem_of_nil].
  - simpl. unfold mbind, M_bind, bind.
    destruct (emits evs tr) as [[[]|e] tr1] eqn:Hemits.
    + apply emits_any in Hemits as (new1 & -> & Hpre).
      intros (new2 & -> & Hnew2)%IH. exists (new1 ++ new2).
      rewrite app_assoc. split; [done|].
      intros ev [Hev|Hev]%elem_of_app.
      * exists evs. split; [by left | by eapply elem_of_prefix].
      * destruct (Hnew2 ev Hev) as (evs' & ? & ?). exists evs'. split; [by right | done].
    + apply emits_any in Hemits as (new1 & -> & Hpre).
      intros [= <- <-]. exists new1. split; [done|].
      intros ev Hev. exists evs. split; [by left | by eapply elem_of_prefix].
  - simpl. unfold lift. intros [= <- <-]. exists []. rewrite app_nil_r.
    split; [done | by intros ev ?%elem_of_nil].
Qed.

Lemma run_blocks_Raise evss e bs tr :
  io_ok (concat evss) →
  run_blocks (map Ok evss ++ Raise e :: bs) tr = (Raise e, tr ++ concat evss).
Proof.
  revert tr. induction evss as [|evs evss IH]; intros tr Hok.
  - simpl. unfold lift. by rewrite app_nil_r.
  - simpl in *. apply Forall_app in Hok as [Hok Hok'].
    unfold mbind, M_bind, bind.
    assert (emits evs tr = (Ok (), tr ++ evs)) as -> by by apply emits_Ok.
    rewrite IH by done. by rewrite app_assoc.
Qed.

End BlockFacts.

Section AnalysisBlocks.
Context `{World}.

Lemma lift_bind {A B : Type} (r : result A) (f : A → M B) tr :
  (lift r ≫= f) tr = match r with Ok a => f a tr | Raise e => (Raise e, tr) end.
Proof. unfold mbind, M_bind, bind, lift. by destruct r. Qed.

Lemma train_plot_blocks runs :
  Blocks (train_plot runs) [train_events <$> traverse get_run_info runs].
Proof.
  intros tr. unfold train_plot. rewrite lift_bind.
  destruct (traverse get_run_info runs) as [infos|e]; [|reflexivity].
  apply Blocks_Emits. unfold train_events.
  apply (Emits_bind _ _ [_]); [apply Emits_emit|].
  apply (Emits_bind _ _ [_]); [apply Emits_emit|].
  apply (Emits_bind _ _ [_]); [apply Emits_emit|].
  apply Emits_bind.
  - apply Emits_for_each. intros i.
    apply (Emits_bind _ _ [_] [_]); apply Emits_emit.
  - apply (Emits_bind _ _ [_]); [apply Emits_emit|].
    apply (Emits_bind _ _ [_]); [apply Emits_emit|].
    apply (Emits_bind _ _ [_] [_]); apply Emits_emit.
Qed.

Lemma confusion_events_Emits i ds acc cm :
  Emits
    (emit (plt_figure 30 30);;
     emit (plt_title (ri_label i +:+ ": (Overall Accuracy: " +:+ format_percent acc));;
     emit (sns_heatmap cm (map (map (Z.eqb 0)) cm));;
     for_each [xaxis; yaxis] (fun axis =>
       emit (axis_set_minor_ticks axis (length (action_descriptions ds)));;
       emit (axis_set_ticks axis (length (action_descriptions ds)) (action_descriptions ds)));;
     emit (xticklabels_set_rotation 90);;
     emit plt_tight_layout;;
     emit (ax_set_ylabel "True label");;
     emit (ax_set_xlabel "Predicted label");;
     emit ax_grid_minor;;
     emit (plt_savefig (os_path_join (ri_run_dir i) "confusion.pdf") true);;
     emit plt_close)
    (confusion_events i ds acc cm).
Proof.
  unfold confusion_events.
  do 3 (apply (Emits_bind _ _ [_]); [apply Emits_emit|]).
  apply (Emits_bind _ _ [_; _; _; _]).
  { apply (Emits_for_each [xaxis; yaxis] _ (fun axis => [_; _])). intros axis.
    apply (Emits_bind _ _ [_] [_]); apply Emits_emit. }
  do 5 (apply (Emits_bind _ _ [_]); [apply Emits_emit|]).
  apply (Emits_bind _ _ [_] [_]); apply Emits_emit.
Qed.

Lemma Blocks_for_each_map {A : Type} (l : list A) body b :
  (∀ a, Blocks (body a) [b a]) → Blocks (for_each l body) (map b l).
Proof.
  intros Hbody. induction l as [|a l IH]; intros tr; [reflexivity|].
  change (map b (a :: l)) with ([b a] ++ map b l).
  simpl for_each. rewrite run_blocks_app. unfold mbind, M_bind, bind.
  rewrite Hbody. destruct (run_blocks [b a] tr) as [[[]|e] tr1]; [apply IH | reflexivity].
Qed.

Lemma confusion_plot_blocks args runs :
  Blocks (confusion_plot args runs) (map (confusion_block args) runs).
Proof.
  unfold confusion_plot.
  apply Blocks_for_each_map. intros run tr.
  unfold confusion_block, confusion_inputs.
  rewrite lift_bind.
  destruct (load_run run (data args) None) as [[[i m] loader]|e]; [|reflexivity].
  rewrite lift_bind. cbn [mbind result_bind].
  destruct (getitem (ri_params i) "cuda") as [cuda|e]; [|reflexivity].
  rewrite lift_bind. cbn [mbind result_bind].
  destruct (predict m loader cuda) as [[[ps ts] cs]|e]; [|reflexivity].
  rewrite lift_bind. cbn [mbind result_bind].
  destruct (accuracy_score ts ps) as [acc|e]; [|reflexivity].
  rewrite lift_bind. cbn [mbind result_bind].
  destruct (confusion_matrix ts ps) as [cm|e]; [|reflexivity].
  apply (Blocks_Emits _ _ (confusion_events_Emits i (dataset loader) acc cm)).
Qed.

Lemma write_or_print_Emits args summary :
  Emits (write_or_print args summary) [output_event args summary].
Proof.
  unfold write_or_print, output_event.
  destruct (truthy_str (output args)); apply Emits_emit.
Qed.

Lemma display_status_blocks args runs :
  Blocks (display_status args runs)
         [(fun s => [output_event args s]) <$> status_table runs].
Proof.
  intros tr. unfold display_status, status_table. rewrite lift_bind.
  destruct (traverse get_run_info runs) as [infos|e]; [|reflexivity].
  rewrite lift_bind. cbn [mbind result_bind].
  destruct (traverse _ infos) as [summaries|e]; [|reflexivity].
  rewrite lift_bind. cbn [mbind result_bind].
  destruct (pd_concat summaries) as [s|e]; [|reflexivity].
  cbn [mbind result_bind].
  destruct (sort_values_desc s "best_acc") as [summary|e]; [|reflexivity].
  apply (Blocks_Emits _ _ (write_or_print_Emits args summary)).
Qed.

Lemma offset_eval_blocks args runs :
  Blocks (offset_eval args runs)
         [(fun s => [output_event args s]) <$> offset_table args runs].
Proof.
  intros tr. unfold offset_eval, offset_table. rewrite lift_bind.
  destruct (traverse _ runs) as [summaries|e]; [|reflexivity].
  rewrite lift_bind. cbn [mbind result_bind].
  destruct (pd_concat summaries) as [s|e]; [|reflexivity].
  cbn [mbind result_bind].
  destruct (sort_values_desc s "multi_offset_acc") as [summary|e]; [|reflexivity].
  apply (Blocks_Emits _ _ (write_or_print_Emits args summary)).
Qed.

Lemma ablation_blocks_run runs :
  Blocks (ablation runs)
         (match ablation_summary runs with
          | Ok summary => ablation_blocks summary
          | Raise e => [Raise e]
          end).
Proof.
  intros tr. unfold ablation, ablation_summary. rewrite lift_bind.
  destruct (traverse _ runs) as [summaries|e]; [|reflexivity].
  rewrite lift_bind. cbn [mbind result_bind].
  destruct (pd_concat summaries) as [summary|e]; [|reflexivity].
  revert tr.
  apply (Blocks_for_each_map
           ["bidirectional"; "embed"; "hd"; "layers"] _
           (fun p => match list_remove p ["bidirectional"; "embed"; "hd"; "layers"] with
                     | Ok rest => (fun t => [print_series t]) <$> ablation_table summary p rest
                     | Raise e => Raise e
                     end)).
  intros p tr. rewrite lift_bind.
  destruct (list_remove p _) as [rest|e]; [|reflexivity].
  unfold ablation_table. rewrite lift_bind. cbn [mbind result_bind].
  destruct (pivot_table summary "best_acc" p rest) as [table|e]; [|reflexivity].
  rewrite lift_bind. cbn [mbind result_bind].
  destruct (frame_mean table) as [t|e]; [|reflexivity].
  apply (Blocks_Emits _ _ (Emits_emit _)).
Qed.

End AnalysisBlocks.

Section Output.
Context `{World}.

Lemma single_block_run (b : result (list event)) tr :
  run_blocks [b] tr =
  match b with
  | Raise e => (Raise e, tr)
  | Ok evs => emits evs tr
  end.
Proof.
  destruct b as [evs|e]; [|reflexivity].
  simpl. unfold mbind, M_bind, bind, ret.
  by destruct (emits evs tr) as [[[]|e] tr1].
Qed.

Lemma emits_single ev tr :
  emits [ev] tr =
  match io_raises ev with
  | Some e => (Raise e, tr)
  | None => (Ok (), tr ++ [ev])
  end.
Proof. rewrite emits_cons. by destruct (io_raises ev). Qed.

Lemma output_event_csv args s p :
  output args = Some p → p ≠ "" → output_event args s = to_csv s p false.
Proof.
  intros Ho Hp. unfold output_event, truthy_str. rewrite Ho. simpl.
  destruct (String.eqb_spec p ""); [contradiction | reflexivity].
Qed.

Lemma output_event_print args s :
  output args = None ∨ output args = Some "" → output_event args s = print_frame s.
Proof. unfold output_event, truthy_str. by intros [-> | ->]. Qed.

(** C5, amended: the status mode runs [display_status] and the
    multi-eval mode [offset_eval]; in both the summary table, when it can
    be computed, goes out in exactly one call: to
    [to_csv] with the path and [index=False] when [-o/--output] has a
    non-empty value (nothing is printed), to [print] when the flag is
    absent or its value is the empty string (no file is written). *)
Theorem output_flag args runs tr :
  let outcome (table : result DataFrame) :=
    match table with
    | Raise e => (Raise e, tr)
    | Ok s =>
        match io_raises (output_event args s) with
        | Some e => (Raise e, tr)
        | None => (Ok (), tr ++ [output_event args s])
        end
    end in
  (type args = "status" → main args tr = display_status args (runs_of args) tr) ∧
  (type args = "multi-eval" → main args tr = offset_eval args (runs_of args) tr) ∧
  display_status args runs tr = outcome (status_table runs) ∧
  offset_eval args runs tr = outcome (offset_table args runs) ∧
  (∀ p s, output args = Some p → p ≠ "" →
          output_event args s = to_csv s p false) ∧
  (∀ s, output args = None ∨ output args = Some "" →
        output_event args s = print_frame s).
Proof.
  cbv zeta. split; [| split; [| split; [| split; [| split]]]].
  - intros Ht. by apply (main_mode args "status").
  - intros Ht. by apply (main_mode args "multi-eval").
  - rewrite display_status_blocks, single_block_run.
    destruct (status_table runs) as [s|e]; [apply emits_single | reflexivity].
  - rewrite offset_eval_blocks, single_block_run.
    destruct (offset_table args runs) as [s|e]; [apply emits_single | reflexivity].
  - intros p s. apply output_event_csv.
  - intros s. apply output_event_print.
Qed.

End Output.

(** C5 as stated fails when the flag is given with an empty value:
    [plot.py status -o ''] is accepted by the parser, the namespace holds
    the empty string, and the table is printed; no file is written. *)
Lemma output_flag_empty_value :
  let c := {| positionals := ["status"]; opt_data := None; opt_output := Some "" |} in
  ∃ args s,
    parse_args c = Some args ∧ type args = "status" ∧ output args = Some "" ∧
    main args [] = (Ok (), [print_frame s]) ∧
    written_files (snd (main args [])) = [] ∧
    (∀ s' p, main args [] ≠ (Ok (), [to_csv s' p false])).
Proof.
  eexists _, _. repeat split. intros s' p. discriminate.
Qed.

Section SortedSummary.
Context `{World}.

(** The order of a column is a total preorder. *)
Hypothesis cell_leb_total : ∀ x y, cell_leb x y = true ∨ cell_leb y x = true.
Hypothesis cell_leb_trans :
  ∀ x y z, cell_leb x y = true → cell_leb y z = true → cell_leb x z = true.

Lemma row_desc_total col : Total (row_desc col).
Proof.
  intros r1 r2. unfold row_desc, key_desc.
  destruct (r1 !! col) as [x|], (r2 !! col) as [y|]; simpl; auto.
  destruct (cell_leb_total x y) as [-> | ->]; simpl; auto.
Qed.

Lemma row_desc_trans col : Transitive (row_desc col).
Proof.
  intros r1 r2 r3. unfold row_desc, key_desc.
  destruct (r1 !! col) as [x|], (r2 !! col) as [y|], (r3 !! col) as [z|];
    simpl; try done.
  rewrite !Is_true_true. intros Hxy Hyz. by apply (cell_leb_trans z y x).
Qed.

Lemma sort_values_desc_Ok df col s :
  sort_values_desc df col = Ok s →
  col ∈ columns df ∧ columns s = columns df ∧
  StronglySorted (row_desc col) (rows s) ∧ rows s ≡ₚ rows df.
Proof.
  unfold sort_values_desc. case_bool_decide; [|discriminate].
  intros [= <-]. simpl. split; [done|]. split; [done|]. split.
  - pose proof (row_desc_trans col). pose proof (row_desc_total col).
    apply StronglySorted_merge_sort; apply _.
  - apply merge_sort_Permutation.
Qed.

Lemma pd_concat_Ok frames c :
  pd_concat frames = Ok c → rows c = concat (map rows frames).
Proof. destruct frames; [discriminate | by intros [= <-]]. Qed.

(** C8: the summary table that the status mode writes or prints is
    sorted by [best_acc] in descending order, and the one of the
    multi-eval mode by [multi_offset_acc] in descending order: of any two
    rows, the earlier one has the larger cell (a row without a cell comes
    last); the rows are those of the summaries of the runs. *)
Theorem summary_sorted args tr tr' :
  (type args = "status" →
   main args tr = (Ok (), tr') →
   ∃ infos summaries s,
     traverse get_run_info (runs_of args) = Ok infos ∧
     traverse (fun i => get_run_summary i None) infos = Ok summaries ∧
     rows s ≡ₚ concat (map rows summaries) ∧
     StronglySorted (row_desc "best_acc") (rows s) ∧
     tr' = tr ++ [output_event args s] ∧
     (output_event args s = print_frame s ∨
      ∃ p, output_event args s = to_csv s p false)) ∧
  (type args = "multi-eval" →
   main args tr = (Ok (), tr') →
   ∃ summaries s,
     traverse (offset_eval_run args) (runs_of args) = Ok summaries ∧
     rows s ≡ₚ concat (map rows summaries) ∧
     StronglySorted (row_desc "multi_offset_acc") (rows s) ∧
     tr' = tr ++ [output_event args s] ∧
     (output_event args s = print_frame s ∨
      ∃ p, output_event args s = to_csv s p false)).
Proof.
  assert (Hev : ∀ s, output_event args s = print_frame s ∨
                     ∃ p, output_event args s = to_csv s p false).
  { intros s. unfold output_event. destruct (truthy_str _); eauto. }
  split.
  - intros Ht. rewrite (main_mode args "status" (display_status args) Ht eq_refl).
    rewrite display_status_blocks, single_block_run.
    unfold status_table.
    destruct (traverse get_run_info (runs_of args)) as [infos|e] eqn:Hinfos; [|discriminate].
    cbn [mbind result_bind fmap result_fmap].
    destruct (traverse _ infos) as [summaries|e] eqn:Hsums; [|discriminate].
    cbn [mbind result_bind fmap result_fmap].
    destruct (pd_concat summaries) as [c|e] eqn:Hc; [|discriminate].
    cbn [mbind result_bind fmap result_fmap].
    destruct (sort_values_desc c "best_acc") as [s|e] eqn:Hs; [|discriminate].
    cbn [fmap result_fmap]. intros [_ ->]%emits_Ok.
    apply sort_values_desc_Ok in Hs as (_ & _ & Hsorted & Hperm).
    apply pd_concat_Ok in Hc. rewrite Hc in Hperm.
    exists infos, summaries, s. repeat (split; [done|]). apply Hev.
  - intros Ht. rewrite (main_mode args "multi-eval" (offset_eval args) Ht eq_refl).
    rewrite offset_eval_blocks, single_block_run.
    unfold offset_table.
    destruct (traverse _ (runs_of args)) as [summaries|e] eqn:Hsums; [|discriminate].
    cbn [mbind result_bind fmap result_fmap].
    destruct (pd_concat summaries) as [c|e] eqn:Hc; [|discriminate].
    cbn [mbind result_bind fmap result_fmap].
    destruct (sort_values_desc c "multi_offset_acc") as [s|e] eqn:Hs; [|discriminate].
    cbn [fmap result_fmap]. intros [_ ->]%emits_Ok.
    apply sort_values_desc_Ok in Hs as (_ & _ & Hsorted & Hperm).
    apply pd_concat_Ok in Hc. rewrite Hc in Hperm.
    exists summaries, s. repeat (split; [done|]). apply Hev.
Qed.

End SortedSummary.

Section Ablation.
Context `{World}.

Lemma main_ablation args tr :
  type args = "ablation" → main args tr = ablation (runs_of args) tr.
Proof.
  intros Ht. by apply (main_mode args "ablation").
Qed.

Lemma ablation_blocks_events summary ev evs :
  Ok evs ∈ ablation_blocks summary → ev ∈ evs → ∃ t, ev = print_series t.
Proof.
  unfold ablation_blocks. simpl. intros Hin Hev.
  repeat (apply elem_of_cons in Hin as [Hin | Hin];
          [apply eq_sym, result_fmap_Ok in Hin as (t & _ & ->);
           apply list_elem_of_singleton in Hev as ->; by exists t |]).
  by apply elem_of_nil in Hin.
Qed.

(** C10: in the ablation mode [-o/--output] changes nothing.  [main] runs
    [ablation] on the run directories, whatever the flag; a run only
    prints (it writes no file, also when it raises), and when it
    completes it has printed four tables, the means of [best_acc] by
    [bidirectional], [embed], [hd] and [layers], each pivoted against the
    three other hyper-parameters. *)
Theorem ablation_ignores_output args :
  type args = "ablation" →
  (∀ o tr,
     main {| type := type args; run_dir := run_dir args;
             data := data args; output := o |} tr = main args tr) ∧
  (∀ tr r tr',
     main args tr = (r, tr') →
     ∃ new, tr' = tr ++ new ∧
            written_files new = [] ∧
            Forall (fun ev => ∃ t, ev = print_series t) new ∧
            (r = Ok () →
             ∃ summary t1 t2 t3 t4,
               ablation_summary (runs_of args) = Ok summary ∧
               ablation_table summary "bidirectional" ["embed"; "hd"; "layers"] = Ok t1 ∧
               ablation_table summary "embed" ["bidirectional"; "hd"; "layers"] = Ok t2 ∧
               ablation_table summary "hd" ["bidirectional"; "embed"; "layers"] = Ok t3 ∧
               ablation_table summary "layers" ["bidirectional"; "embed"; "hd"] = Ok t4 ∧
               new = [print_series t1; print_series t2;
                      print_series t3; print_series t4])).
Proof.
  intros Ht. split.
  - intros o tr. rewrite !main_ablation by done. reflexivity.
  - intros tr r tr'. rewrite main_ablation by done.
    rewrite ablation_blocks_run. intros Hrun.
    destruct (run_blocks_any _ _ _ _ Hrun) as (new & -> & Hnew).
    assert (Hprints : Forall (fun ev => ∃ t, ev = print_series t) new).
    { apply Forall_forall. intros ev Hev.
      destruct (Hnew ev Hev) as (evs & Hin & Hev').
      destruct (ablation_summary (runs_of args)) as [summary|e].
      - by eapply ablation_blocks_events.
      - apply list_elem_of_singleton in Hin. discriminate. }
    exists new. split; [done|]. split; [|split; [done|]].
    + clear -Hprints. induction Hprints as [|ev new [t ->] _ IH]; [done|].
      exact IH.
    + intros ->. apply run_blocks_Ok in Hrun as (evss & Hbs & _ & Heq).
      apply app_inv_head in Heq as ->.
      destruct (ablation_summary (runs_of args)) as [summary|e];
        [|by destruct evss].
      unfold ablation_blocks in Hbs. simpl in Hbs.
      destruct evss as [|e1 [|e2 [|e3 [|e4 [|]]]]]; try discriminate.
      injection Hbs as H1 H2 H3 H4.
      apply result_fmap_Ok in H1 as (t1 & H1 & ->).
      apply result_fmap_Ok in H2 as (t2 & H2 & ->).
      apply result_fmap_Ok in H3 as (t3 & H3 & ->).
      apply result_fmap_Ok in H4 as (t4 & H4 & ->).
      by exists summary, t1, t2, t3, t4.
Qed.

End Ablation.

Section TrainPlot.
Context `{World}.

Lemma traverse_Ok {A B : Type} (f : A → result B) l bs :
  traverse f l = Ok bs ↔ Forall2 (fun a b => f a = Ok b) l bs.
Proof.
  revert bs. induction l as [|a l IH]; intros bs; simpl.
  - split; [intros [= <-]; constructor | by inversion 1].
  - destruct (f a) as [b|e] eqn:Hfa.
    + destruct (traverse f l) as [bs'|e].
      * split.
        -- intros [= <-]. constructor; [done | by apply IH].
        -- inversion 1 as [|? b' ? bs'' Hb Hbs]; subst.
           rewrite <- IH in Hbs. congruence.
      * split; [discriminate|].
        inversion 1 as [|? b' ? bs'' Hb Hbs]; subst. by rewrite <- IH in Hbs.
    + split; [discriminate|].
      inversion 1 as [|? b' ? bs'' Hb Hbs]; subst. congruence.
Qed.

Lemma curves_on_plots ax (f g : run_info → list float) infos :
  curves_on ax (flat_map (fun i => [ax_plot 1 (f i) (ri_label i);
                                    ax_plot 2 (g i) (ri_label i)]) infos) =
  match ax with
  | 1 => map (fun i => (f i, ri_label i)) infos
  | 2 => map (fun i => (g i, ri_label i)) infos
  | _ => []
  end.
Proof.
  destruct ax as [|[|[|ax]]];
    (induction infos as [|i infos IH]; [reflexivity|]);
    change (flat_map ?h (i :: infos)) with (h i ++ flat_map h infos);
    unfold curves_on in *; rewrite omap_app, IH; reflexivity.
Qed.

Lemma curves_on_app ax l k :
  curves_on ax (l ++ k) = curves_on ax l ++ curves_on ax k.
Proof. apply omap_app. Qed.

Lemma plots_only {B : Type} (g : event → option B) infos :
  (∀ a ys l, g (ax_plot a ys l) = None) →
  omap g (flat_map (fun i => [ax_plot 1 (ri_loss i) (ri_label i);
                              ax_plot 2 (ri_accuracy i) (ri_label i)]) infos) = [].
Proof.
  intros Hg. induction infos as [|i infos IH]; [done|].
  change (flat_map ?h (i :: infos)) with (h i ++ flat_map h infos).
  rewrite omap_app, IH. simpl. by rewrite !Hg.
Qed.

(** C6: the train mode runs [train_plot], and a run of [train_plot] that
    completes has issued [train_events]:
    one grid of two rows and one column; on the first axes, titled
    Evaluation Loss, the loss curve of every run, on the second, titled
    Evaluation Accuracy, the accuracy curve of every run;
    the y axis of the second axes set to [0, 100] once every curve is
    drawn; and one [savefig], of [train_progress.pdf].  It completes
    whenever the run infos can be read and no plotting call fails. *)
Theorem train_plot_figure runs tr :
  (∀ args, type args = "train" → main args tr = train_plot (runs_of args) tr) ∧
  (∀ infos, traverse get_run_info runs = Ok infos →
            io_ok (train_events infos) →
            train_plot runs tr = (Ok (), tr ++ train_events infos)) ∧
  (∀ tr', train_plot runs tr = (Ok (), tr') →
          ∃ infos, Forall2 (fun r i => get_run_info r = Ok i) runs infos ∧
                   tr' = tr ++ train_events infos) ∧
  (∀ infos,
     let new := train_events infos in
     subplot_grids new = [(2, 1)] ∧
     axes_titles new = [(1, "Evaluation Loss"); (2, "Evaluation Accuracy")] ∧
     curves_on 1 new = map (fun i => (ri_loss i, ri_label i)) infos ∧
     curves_on 2 new = map (fun i => (ri_accuracy i, ri_label i)) infos ∧
     ylim_of 2 new = Some (0, 100)%Z ∧
     (∃ drawn, new = drawn ++ [ax_set_ylim 2 0 100; plt_legend "best" 6;
                               plt_tight_layout;
                               plt_savefig "train_progress.pdf" false]) ∧
     saved_figures new = ["train_progress.pdf"] ∧
     written_files new = ["train_progress.pdf"]).
Proof.
  split; [| split; [| split]].
  - intros args Ht. by apply (main_mode args "train").
  - intros infos Hinfos Hok.
    rewrite train_plot_blocks, single_block_run, Hinfos.
    cbn [fmap result_fmap]. by apply emits_Ok.
  - intros tr'. rewrite train_plot_blocks, single_block_run.
    destruct (traverse get_run_info runs) as [infos|e] eqn:Hinfos; [|discriminate].
    cbn [fmap result_fmap]. intros [_ ->]%emits_Ok.
    exists infos. split; [by apply traverse_Ok | done].
  - intros infos. cbv zeta. unfold train_events.
    repeat split.
    + unfold subplot_grids. simpl. rewrite omap_app, plots_only by done. done.
    + unfold axes_titles. simpl. rewrite omap_app, plots_only by done. done.
    + rewrite !curves_on_app, curves_on_plots. simpl. by rewrite app_nil_r.
    + rewrite !curves_on_app, curves_on_plots. simpl. by rewrite app_nil_r.
    + unfold ylim_of. simpl. rewrite omap_app, plots_only by done. done.
    + eexists ([_; _; _] ++ _). rewrite <- app_assoc. reflexivity.
    + unfold saved_figures. simpl. rewrite omap_app, plots_only by done. done.
    + unfold written_files. simpl. rewrite omap_app, plots_only by done. done.
Qed.

End TrainPlot.

Section ConfusionPlot.
Context `{World}.

Lemma confusion_inputs_Ok args run i ds acc cm :
  confusion_inputs args run = Ok (i, ds, acc, cm) ↔
  ∃ m loader cuda predictions targets confidences,
    load_run run (data args) None = Ok (i, m, loader) ∧
    ds = dataset loader ∧
    getitem (ri_params i) "cuda" = Ok cuda ∧
    predict m loader cuda = Ok (predictions, targets, confidences) ∧
    accuracy_score targets predictions = Ok acc ∧
    confusion_matrix targets predictions = Ok cm.
Proof.
  unfold confusion_inputs. split.
  - destruct (load_run run (data args) None) as [[[i' m] loader]|e]; [|discriminate].
    cbn [mbind result_bind].
    destruct (getitem (ri_params i') "cuda") as [cuda|e] eqn:Hcuda; [|discriminate].
    cbn [mbind result_bind].
    destruct (predict m loader cuda) as [[[ps ts] cs]|e] eqn:Hp; [|discriminate].
    cbn [mbind result_bind].
    destruct (accuracy_score ts ps) as [acc'|e] eqn:Hacc; [|discriminate].
    cbn [mbind result_bind].
    destruct (confusion_matrix ts ps) as [cm'|e] eqn:Hcm; [|discriminate].
    cbn [mbind result_bind]. intros [= -> <- -> ->].
    by exists m, loader, cuda, ps, ts, cs.
  - intros (m & loader & cuda & ps & ts & cs & -> & -> & Hcuda & Hp & Hacc & Hcm).
    cbn [mbind result_bind]. rewrite Hcuda. cbn [mbind result_bind].
    rewrite Hp. cbn [mbind result_bind]. rewrite Hacc. cbn [mbind result_bind].
    by rewrite Hcm.
Qed.

Lemma heatmaps_confusion_events t0 i ds acc cm rest :
  heatmaps t0 (confusion_events i ds acc cm ++ rest) =
  (ri_label i +:+ ": (Overall Accuracy: " +:+ format_percent acc, cm)
    :: heatmaps (ri_label i +:+ ": (Overall Accuracy: " +:+ format_percent acc) rest.
Proof. reflexivity. Qed.

Lemma saved_figures_confusion_events i ds acc cm :
  saved_figures (confusion_events i ds acc cm) =
  [os_path_join (ri_run_dir i) "confusion.pdf"].
Proof. reflexivity. Qed.

Lemma confusion_blocks_heatmaps args runs evss t0 :
  map (confusion_block args) runs = map Ok evss →
  Forall2 (confusion_of args) runs (heatmaps t0 (concat evss)).
Proof.
  revert evss t0. induction runs as [|run runs IH]; intros [|evs evss] t0 Hmap;
    try discriminate; [constructor|].
  simpl in Hmap. injection Hmap as Hblock Hmap.
  unfold confusion_block in Hblock.
  apply result_fmap_Ok in Hblock as ([[[i ds] acc] cm] & Hin & ->).
  apply confusion_inputs_Ok in Hin
    as (m & loader & cuda & ps & ts & cs & Hload & -> & Hcuda & Hp & Hacc & Hcm).
  change (Forall2 (confusion_of args) (run :: runs)
            (heatmaps t0 (confusion_events i (dataset loader) acc cm ++ concat evss))).
  rewrite heatmaps_confusion_events.
  constructor; [| by apply IH].
  by exists i, m, loader, cuda, ps, ts, cs, acc.
Qed.

(** C4: in the confusion mode every run gets one heat map, and that heat
    map shows [confusion_matrix(targets, predictions)] under a title
    formatted from the label of the run and
    [accuracy_score(targets, predictions)], the targets and the
    predictions being those [predict] returns on the loader of the run. *)
Theorem confusion_plot_figures args tr tr' :
  type args = "confusion" →
  main args tr = (Ok (), tr') →
  ∃ new, tr' = tr ++ new ∧
         Forall2 (fun run fig =>
                    ∃ i m loader cuda predictions targets confidences acc,
                      load_run run (data args) None = Ok (i, m, loader) ∧
                      getitem (ri_params i) "cuda" = Ok cuda ∧
                      predict m loader cuda = Ok (predictions, targets, confidences) ∧
                      confusion_matrix targets predictions = Ok (snd fig) ∧
                      accuracy_score targets predictions = Ok acc ∧
                      fst fig = ri_label i +:+ ": (Overall Accuracy: "
                                           +:+ format_percent acc)
                 (runs_of args) (heatmaps "" new).
Proof.
  intros Ht. rewrite (main_mode args "confusion" (confusion_plot args) Ht eq_refl).
  rewrite confusion_plot_blocks.
  intros (evss & Hmap & _ & ->)%run_blocks_Ok.
  exists (concat evss). split; [done|].
  by apply confusion_blocks_heatmaps.
Qed.

End ConfusionPlot.

Section Exceptions.
Context `{World}.



End Exceptions.

Section Predict.
Context `{World}.

Lemma predict_loop_traverse m cuda bs predictions targets confidences :
  predict_loop m cuda bs predictions targets confidences =
  (fun l => (predictions ++ map (fun t => fst (fst t)) l,
             targets ++ map (fun t => snd (fst t)) l,
             confidences ++ map snd l))
    <$> traverse (predict_batch m cuda) bs.
Proof.
  revert predictions targets confidences.
  induction bs as [|[x y] bs IH]; intros ps ts cs.
  - simpl. by rewrite !app_nil_r.
  - simpl.
    destruct (if cuda then to_cuda x else Ok x) as [x'|e]; [|reflexivity].
    cbn [mbind result_bind].
    destruct (if cuda then to_cuda y else Ok y) as [y'|e]; [|reflexivity].
    cbn [mbind result_bind].
    destruct (forward m x') as [logits|e]; [|reflexivity].
    cbn [mbind result_bind].
    destruct (torch_argmax_dim1 logits) as [y_hat|e]; [|reflexivity].
    cbn [mbind result_bind].
    destruct (data0 y') as [target|e]; [|reflexivity].
    cbn [mbind result_bind].
    destruct (data0 y_hat) as [prediction|e]; [|reflexivity].
    cbn [mbind result_bind]. rewrite IH.
    destruct (traverse (predict_batch m cuda) bs) as [l|e]; [|reflexivity].
    simpl. by rewrite <- !app_assoc.
Qed.

Lemma to_cuda_Ok {A : Type} (cuda : bool) (t t' : A) :
  (if cuda then to_cuda t else Ok t) = Ok t' → t' = t.
Proof.
  unfold to_cuda. destruct cuda; [|congruence].
  destruct cuda_error; congruence.
Qed.

Lemma predict_batch_Ok m cuda x y p t c :
  predict_batch m cuda (x, y) = Ok (p, t, c) →
  ∃ logits y_hat,
    forward m x = Ok logits ∧
    torch_argmax_dim1 logits = Ok y_hat ∧
    head y_hat = Some p ∧
    head y = Some t ∧
    c = softmax_dim1 logits.
Proof.
  unfold predict_batch.
  destruct (if cuda then to_cuda x else Ok x) as [x'|e] eqn:Hx; [|discriminate].
  apply to_cuda_Ok in Hx as ->. cbn [mbind result_bind].
  destruct (if cuda then to_cuda y else Ok y) as [y'|e] eqn:Hy; [|discriminate].
  apply to_cuda_Ok in Hy as ->. cbn [mbind result_bind].
  destruct (forward m x) as [logits|e] eqn:Hm; [|discriminate].
  cbn [mbind result_bind].
  destruct (torch_argmax_dim1 logits) as [y_hat|e] eqn:Hmax; [|discriminate].
  cbn [mbind result_bind].
  destruct y as [|t' y]; [discriminate|]. cbn [data0 mbind result_bind].
  destruct y_hat as [|p' y_hat]; [discriminate|]. cbn [data0 mbind result_bind].
  intros [= -> -> <-]. by exists logits, (p :: y_hat).
Qed.

(** C9, amended: [predict] returns three lists with one entry per batch
    of the loader, in the order of the batches.  For the batch [(x, y)]
    the entry of [confidences] is the softmax over dimension 1 of the
    logits [model(x)], the entry of [predictions] is the first element of
    the argmax over dimension 1 of those logits (the class predicted for
    the first sample of the batch), and the entry of [targets] is the
    first element of [y]. *)
Theorem predict_entries m loader cuda predictions targets confidences :
  predict m loader cuda = Ok (predictions, targets, confidences) →
  length predictions = length (batches loader) ∧
  length targets = length (batches loader) ∧
  length confidences = length (batches loader) ∧
  ∀ n x y,
    batches loader !! n = Some (x, y) →
    ∃ logits y_hat,
      forward m x = Ok logits ∧
      torch_argmax_dim1 logits = Ok y_hat ∧
      predictions !! n = head y_hat ∧
      is_Some (head y_hat) ∧
      targets !! n = head y ∧
      confidences !! n = Some (softmax_dim1 logits).
Proof.
  unfold predict. rewrite predict_loop_traverse.
  intros (l & Hl & [= -> -> ->])%result_fmap_Ok.
  apply traverse_Ok in Hl. simpl.
  rewrite !length_map. pose proof (Forall2_length _ _ _ Hl) as Hlen.
  repeat split; try done.
  intros n x y Hn.
  destruct (Forall2_lookup_l _ _ _ _ _ Hl Hn) as ([[p t] c] & Hln & Hb).
  apply predict_batch_Ok in Hb as (logits & y_hat & Hm & Hmax & Hp & Ht & ->).
  exists logits, y_hat.
  rewrite !list_lookup_fmap, Hln, Hp, Ht. simpl. eauto 10.
Qed.

End Predict.

(** C9 as stated fails on a batch of more than one sample: the argmax over
    dimension 1 of the logits of the batch has one class per sample, and
    [predict] records the first of them only. *)
Lemma predict_batch_of_two :
  ∃ x y logits,
    batches Demo.loader_pair = [(x, y)] ∧
    forward () x = Ok logits ∧
    nrows logits = 2 ∧
    torch_argmax_dim1 logits = Ok [1; 0]%Z ∧
    predict () Demo.loader_pair (VBool false) = Ok ([1]%Z, [1]%Z, [softmax_dim1 logits]) ∧
    torch_argmax_dim1 logits ≠ Ok [1]%Z.
Proof.
  eexists _, _, _. repeat split. discriminate.
Qed.

Section MultiOffsetFacts.
Context `{World}.

Lemma traverse_map {A B C : Type} (g : A → B) (f : B → result C) l :
  traverse f (map g l) = traverse (fun a => f (g a)) l.
Proof. induction l as [|a l IH]; simpl; [done | by rewrite IH]. Qed.

Lemma traverse_ext_in {A B : Type} (f g : A → result B) l :
  (∀ a, a ∈ l → f a = g a) → traverse f l = traverse g l.
Proof.
  induction l as [|a l IH]; intros Hfg; simpl; [done|].
  rewrite (Hfg a) by left. rewrite IH; [done|].
  intros b Hb. apply Hfg. by right.
Qed.

Lemma nth_row_of a i k d :
  k < ncols a → nth k (row_of a i) d = nth (i * ncols a + k) (elems2 a) d.
Proof.
  intros Hk. unfold row_of. rewrite nth_firstn.
  destruct (Nat.ltb_spec k (ncols a)); [|lia]. apply nth_skipn.
Qed.

Lemma row_of_mean_axis0 a3 j :
  j < dim1 a3 →
  row_of (mean_axis0 a3) j =
  map (fun k => np_mean (map (fun s => nth (s * (dim1 a3 * dim2 a3) + (j * dim2 a3 + k))
                                           (elems3 a3) nan)
                             (seq 0 (dim0 a3))))
      (seq 0 (dim2 a3)).
Proof.
  intros Hj. unfold row_of, mean_axis0. simpl.
  rewrite skipn_map, firstn_map, drop_seq, take_seq.
  replace (dim2 a3 `min` (dim1 a3 * dim2 a3 - j * dim2 a3)) with (dim2 a3) by nia.
  replace (0 + j * dim2 a3) with (j * dim2 a3 + 0) by lia.
  rewrite <- (fmap_add_seq (j * dim2 a3) 0).
  change (Nat.add (j * dim2 a3) <$> seq 0 (dim2 a3))
    with (map (Nat.add (j * dim2 a3)) (seq 0 (dim2 a3))).
  rewrite map_map. reflexivity.
Qed.

Lemma reshape_Ok a d0 d1 a3 :
  reshape a d0 d1 = Ok a3 →
  dim0 a3 = d0 ∧ dim1 a3 = d1 ∧ dim2 a3 = nrows a * ncols a / (d0 * d1) ∧
  elems3 a3 = elems2 a ∧ nrows a * ncols a = d0 * d1 * dim2 a3.
Proof.
  unfold reshape.
  destruct (Nat.eqb_spec (d0 * d1) 0) as [|Hknown]; [discriminate|]. simpl.
  destruct (Nat.eqb_spec ((nrows a * ncols a) mod (d0 * d1)) 0) as [Hmod|];
    [|discriminate].
  simpl. intros [= <-]. simpl. repeat split.
  apply Nat.Div0.div_exact in Hmod. exact Hmod.
Qed.

Lemma reshape_rows a d0 d1 :
  nrows a = d0 * d1 → 0 < d0 * d1 →
  reshape a d0 d1 =
  Ok {| dim0 := d0; dim1 := d1; dim2 := ncols a; elems3 := elems2 a |}.
Proof.
  intros Hrows Hpos. unfold reshape. rewrite Hrows.
  destruct (Nat.eqb_spec (d0 * d1) 0) as [|_]; [lia|]. simpl.
  rewrite (Nat.mul_comm (d0 * d1) (ncols a)), Nat.Div0.mod_mul. simpl.
  rewrite Nat.div_mul by lia. reflexivity.
Qed.

Lemma reshape_to_rows a d0 d1 :
  nrows a = d0 * d1 →
  reshape_to a d0 d1 (ncols a) =
  Ok {| dim0 := d0; dim1 := d1; dim2 := ncols a; elems3 := elems2 a |}.
Proof.
  intros Hrows. unfold reshape_to. rewrite Hrows.
  by rewrite Nat.eqb_refl.
Qed.

(** The class of every sample, computed on the flat buffer as the code
    does and on the rows of the samples. *)
Lemma argmax_mean_rows a d0 n :
  np_argmax_axis1 (mean_axis0 {| dim0 := d0; dim1 := n; dim2 := ncols a;
                             elems3 := elems2 a |}) =
  multi_offset_predictions a d0 n.
Proof.
  unfold np_argmax_axis1, argmax_rows, multi_offset_predictions, rows_of.
  rewrite traverse_map. simpl nrows.
  apply traverse_ext_in. intros j Hj%elem_of_seq.
  rewrite row_of_mean_axis0 by (simpl; lia). simpl.
  f_equal. unfold averaged_confidence.
  apply map_ext_in. intros k Hk%list_elem_of_In%elem_of_seq.
  f_equal. apply map_ext. intros s.
  rewrite nth_row_of by lia. f_equal. nia.
Qed.

Lemma offset_eval_run_step args run info m loader cuda ps ts cs :
  load_run run (data args) (Some "all") = Ok (info, m, loader) →
  getitem (ri_params info) "cuda" = Ok cuda →
  predict m loader cuda = Ok (ps, ts, cs) →
  offset_eval_run args run =
    (n_samples ← floordiv (ds_len (dataset loader)) (skip (dataset loader));
     a ← np_concatenate cs;
     a3 ← reshape a (skip (dataset loader)) n_samples;
     predictions ← np_argmax_axis1 (mean_axis0 a3);
     acc ← accuracy_score (take n_samples ts) predictions;
     get_run_summary info (Some acc)).
Proof.
  intros Hload Hcuda Hp. unfold offset_eval_run.
  rewrite Hload. cbn [mbind result_bind]. rewrite Hcuda. cbn [mbind result_bind].
  rewrite Hp. cbn [mbind result_bind].
  destruct (floordiv _ _) as [n|]; [|done]. cbn [mbind result_bind].
  destruct (np_concatenate cs) as [a|]; [|done]. cbn [mbind result_bind].
  by destruct (reshape a _ n).
Qed.

Lemma reshape_pos a d0 d1 a3 : reshape a d0 d1 = Ok a3 → 0 < d0 * d1.
Proof.
  unfold reshape. destruct (Nat.eqb_spec (d0 * d1) 0); [discriminate | lia].
Qed.

Lemma floordiv_Ok x y n : floordiv x y = Ok n ↔ y ≠ 0 ∧ n = x / y.
Proof.
  unfold floordiv. destruct (Nat.eqb_spec y 0); split.
  - discriminate.
  - by intros [? _].
  - by intros [= <-].
  - by intros [_ ->].
Qed.

(** C3, amended: for a run that loads and predicts, [offset_eval] cuts
    the targets to [n_samples = len(dataset) // dataset.skip], reshapes
    the concatenated confidences to [(dataset.skip, n_samples, -1)],
    averages over the first axis, takes the argmax over the last axis and
    scores it against the cut targets with [accuracy_score]; the
    exception of a step is the outcome of the run.  When the reshape
    succeeds, its last dimension is the number of elements divided by
    [dataset.skip * n_samples]: it is the number of classes if the
    concatenated confidences hold [dataset.skip * n_samples] rows and,
    unless there is no class at all, only if they do.  With that many
    rows the accuracy is the one the specification words, and the
    prediction of the sample [j] is the class of largest mean, over the
    offsets [s], of the confidences in the row [s * n_samples + j]. *)
Theorem offset_eval_run_accuracy args run info m loader cuda ps ts cs :
  load_run run (data args) (Some "all") = Ok (info, m, loader) →
  getitem (ri_params info) "cuda" = Ok cuda →
  predict m loader cuda = Ok (ps, ts, cs) →
  let ds := dataset loader in
  offset_eval_run args run =
    (n_samples ← floordiv (ds_len ds) (skip ds);
     a ← np_concatenate cs;
     a3 ← reshape a (skip ds) n_samples;
     predictions ← np_argmax_axis1 (mean_axis0 a3);
     acc ← accuracy_score (take n_samples ts) predictions;
     get_run_summary info (Some acc)) ∧
  ∀ n_samples a a3,
    floordiv (ds_len ds) (skip ds) = Ok n_samples →
    np_concatenate cs = Ok a →
    reshape a (skip ds) n_samples = Ok a3 →
    n_samples = ds_len ds / skip ds ∧
    dim0 a3 = skip ds ∧ dim1 a3 = n_samples ∧
    dim2 a3 = nrows a * ncols a / (skip ds * n_samples) ∧
    elems3 a3 = elems2 a ∧
    (nrows a = skip ds * n_samples → dim2 a3 = ncols a) ∧
    (ncols a ≠ 0 → dim2 a3 = ncols a → nrows a = skip ds * n_samples) ∧
    (nrows a = skip ds * n_samples →
       offset_eval_run args run =
         (acc ← multi_offset_accuracy_spec ds ts cs;
          get_run_summary info (Some acc)) ∧
       offset_eval_run args run =
         (predictions ← multi_offset_predictions a (skip ds) n_samples;
          acc ← accuracy_score (take n_samples ts) predictions;
          get_run_summary info (Some acc))).
Proof.
  intros Hload Hcuda Hp ds.
  pose proof (offset_eval_run_step _ _ _ _ _ _ _ _ _ Hload Hcuda Hp) as Hrun.
  fold ds in Hrun. split; [exact Hrun|].
  intros n_samples a a3 Hn Ha Ha3.
  pose proof (reshape_pos _ _ _ _ Ha3) as Hpos.
  pose proof (reshape_Ok _ _ _ _ Ha3) as (Hd0 & Hd1 & Hd2 & Helems & Hsize).
  pose proof (proj1 (floordiv_Ok _ _ _) Hn) as [Hskip Hdiv].
  split; [exact Hdiv|]. split; [exact Hd0|]. split; [exact Hd1|].
  split; [exact Hd2|]. split; [exact Helems|].
  split; [| split].
  - intros Hrows. rewrite reshape_rows in Ha3 by done. by injection Ha3 as <-.
  - intros Hcols Hdim. rewrite Hdim in Hsize.
    by apply Nat.mul_cancel_r in Hsize.
  - intros Hrows. split.
    + rewrite Hrun, Hn. cbn [mbind result_bind]. rewrite Ha. cbn [mbind result_bind].
      rewrite reshape_rows by done. cbn [mbind result_bind].
      unfold multi_offset_accuracy_spec.
      fold ds. rewrite Hn. cbn [mbind result_bind]. rewrite Ha. cbn [mbind result_bind].
      rewrite reshape_to_rows by done.
      cbn [mbind result_bind fmap result_fmap].
      by destruct (np_argmax_axis1 _).
    + rewrite Hrun, Hn. cbn [mbind result_bind]. rewrite Ha. cbn [mbind result_bind].
      rewrite reshape_rows by done. cbn [mbind result_bind].
      by rewrite argmax_mean_rows.
Qed.

End MultiOffsetFacts.

(** C3 as stated fails when the confidences do not hold
    [dataset.skip * n_samples] rows.  With six samples over two classes and
    [skip = 4], [n_samples] is 1 and the six rows are reshaped to
    [(4, 1, 3)]: the last dimension is not the number of classes, the run
    still gets an accuracy, and the computation the specification words
    (a reshape to [(4, 1, 2)]) has none. *)
Lemma multi_offset_six_by_four :
  let args := {| type := "multi-eval"; run_dir := "runs/"; data := None; output := None |} in
  let ds := dataset (Demo.loader6 4) in
  ∃ ps ts cs a a3 summary,
    load_run "runs/b" (data args) (Some "all") = Ok (Demo.info "runs/b", (), Demo.loader6 4) ∧
    predict () (Demo.loader6 4) (VBool false) = Ok (ps, ts, cs) ∧
    np_concatenate cs = Ok a ∧
    (nrows a, ncols a) = (6, 2) ∧
    ds_len ds / skip ds = 1 ∧
    reshape a (skip ds) 1 = Ok a3 ∧
    (dim0 a3, dim1 a3, dim2 a3) = (4, 1, 3) ∧
    offset_eval_run args "runs/b" = Ok summary ∧
    multi_offset_accuracy_spec ds ts cs = Raise (ValueError "cannot reshape array").
Proof.
  eexists _, _, _, _, _, _. repeat split.
Qed.


(** * The properties at work in the concrete world *)
Module Examples.
Import Demo.

Lemma Z_leb_total (x y : Z) : Z.leb x y = true ∨ Z.leb y x = true.
Proof. destruct (Z.leb_spec x y); [by left | right; apply Z.leb_le; lia]. Qed.

Lemma Z_leb_trans (x y z : Z) :
  Z.leb x y = true → Z.leb y z = true → Z.leb x z = true.
Proof. rewrite !Z.leb_le. lia. Qed.

(** C2 on [plot.py status]: the two runs under [runs/]. *)
Lemma main_runs_example :
  parse_args {| positionals := ["status"]; opt_data := None; opt_output := None |}
    = Some status_args ∧
  run_dir status_args = "runs/" ∧
  ∃ f, analysis_of status_args "status" = Some f ∧
       ∀ tr, main status_args tr = f ["runs/a"; "runs/b"] tr.
Proof.
  split; [reflexivity|]. split; [reflexivity|].
  exact (proj1 (proj2 (main_runs (H0 := world)
                         {| positionals := ["status"]; opt_data := None;
                            opt_output := None |}
                         status_args eq_refl))).
Defined.

(** C3 on [plot.py multi-eval], run [runs/a]: six samples, two offsets,
    three samples per offset. *)
Lemma offset_eval_run_accuracy_example :
  ∃ ps ts cs a a3,
    predict () (loader6 2) (VBool false) = Ok (ps, ts, cs) ∧
    np_concatenate cs = Ok a ∧
    reshape a 2 3 = Ok a3 ∧
    (nrows a, dim2 a3, ncols a) = (2 * 3, 2, 2) ∧
    multi_offset_predictions a 2 3 = Ok [0; 1; 1]%Z ∧
    offset_eval_run multi_eval_args "runs/a" =
      (acc ← multi_offset_accuracy_spec (dataset (loader6 2)) ts cs;
       get_run_summary (info "runs/a") (Some acc)).
Proof.
  eexists _, _, _, _, _.
  split; [reflexivity|]. split; [reflexivity|]. split; [reflexivity|].
  split; [reflexivity|]. split; [reflexivity|].
  pose proof (proj2 (offset_eval_run_accuracy (H0 := world) multi_eval_args "runs/a"
                       (info "runs/a") () (loader6 2) (VBool false) _ _ _
                       eq_refl eq_refl eq_refl)
                3 _ _ eq_refl eq_refl eq_refl) as Hshape.
  exact (proj1 (proj2 (proj2 (proj2 (proj2 (proj2 (proj2 (proj2 Hshape))))))
                  eq_refl)).
Defined.

(** C4 on [plot.py confusion]: one heat map per run. *)
Lemma confusion_plot_example :
  ∃ tr',
    type confusion_args = "confusion" ∧
    main confusion_args [] = (Ok (), tr') ∧
    ∃ new, tr' = [] ++ new ∧
           Forall2 (confusion_of confusion_args) ["runs/a"; "runs/b"] (heatmaps "" new).
Proof.
  eexists. split; [reflexivity|]. split; [reflexivity|].
  exact (confusion_plot_figures (H0 := world) confusion_args [] _ eq_refl eq_refl).
Defined.

(** C8 on [plot.py status]: the table of the two runs, printed sorted. *)
Lemma summary_sorted_example :
  ∃ tr',
    type status_args = "status" ∧
    main status_args [] = (Ok (), tr') ∧
    ∃ infos summaries s,
      traverse get_run_info ["runs/a"; "runs/b"] = Ok infos ∧
      traverse (fun i => get_run_summary i None) infos = Ok summaries ∧
      rows s ≡ₚ concat (map rows summaries) ∧
      StronglySorted (row_desc "best_acc") (rows s) ∧
      tr' = [] ++ [output_event status_args s] ∧
      (output_event status_args s = print_frame s ∨
       ∃ p, output_event status_args s = to_csv s p false).
Proof.
  eexists. split; [reflexivity|]. split; [reflexivity|].
  exact (proj1 (summary_sorted (H0 := world) Z_leb_total Z_leb_trans
                  status_args [] _) eq_refl eq_refl).
Defined.

(** C9 on six batches of one sample. *)
Lemma predict_entries_example :
  ∃ ps ts cs,
    predict () (loader6 2) (VBool false) = Ok (ps, ts, cs) ∧
    length ps = 6 ∧ length ts = 6 ∧ length cs = 6.
Proof.
  eexists _, _, _. split; [reflexivity|].
  destruct (predict_entries (H0 := world) () (loader6 2) (VBool false) _ _ _ eq_refl)
    as (Hps & Hts & Hcs & _).
  exact (conj Hps (conj Hts Hcs)).
Defined.

(** C10 on [plot.py ablation -o out.csv]: the flag changes nothing. *)
Lemma ablation_ignores_output_example :
  type ablation_args = "ablation" ∧
  ∀ o tr,
    main {| type := "ablation"; run_dir := "runs/"; data := None; output := o |} tr
    = main ablation_args tr.
Proof.
  split; [reflexivity|].
  exact (proj1 (ablation_ignores_output (H0 := world) ablation_args eq_refl)).
Defined.

End Examples.

(** * Further properties of the script *)

Section CommandLineFacts.
Context `{World}.

Lemma endswith_sep_slash (d : string) : endswith_sep (d +:+ "/") = true.
Proof.
  unfold endswith_sep. rewrite list_ascii_of_string_app, rev_app_distr.
  reflexivity.
Qed.

Lemma string_app_assoc (a b c : string) : (a +:+ b) +:+ c = a +:+ (b +:+ c).
Proof.
  induction a as [|x a IH]; [done|].
  change (String x ((a +:+ b) +:+ c) = String x (a +:+ (b +:+ c))).
  by f_equal.
Qed.

(** X18: a run directory given with or without its trailing separator is
    the same run directory: [plot.py status runs] and [plot.py status runs/]
    search with the same pattern and run the same analysis on the same
    runs. *)
Theorem run_dir_trailing_sep args tr :
  run_dir args ≠ "" → endswith_sep (run_dir args) = false →
  os_path_join (run_dir args +:+ "/") "**/log.txt"
    = os_path_join (run_dir args) "**/log.txt" ∧
  main {| type := type args; run_dir := run_dir args +:+ "/";
          data := data args; output := output args |} tr = main args tr.
Proof.
  intros Hne Hend.
  assert (Hpat : os_path_join (run_dir args +:+ "/") "**/log.txt"
                 = os_path_join (run_dir args) "**/log.txt").
  { rewrite !os_path_join_pattern, endswith_sep_slash, Hend, orb_true_r.
    destruct (String.eqb_spec (run_dir args) ""); [done|]. simpl.
    apply string_app_assoc. }
  split; [exact Hpat|].
  unfold main. cbn [run_dir type data output]. by rewrite Hpat.
Qed.

(** X8: the flags an analysis does not read change nothing.  The train
    and the ablation modes ignore [-d/--data] and [-o/--output], the
    confusion mode ignores [-o/--output] and the status mode ignores
    [-d/--data]. *)
Theorem unused_flags args tr :
  (type args = "train" ∨ type args = "ablation" →
   ∀ d o, main {| type := type args; run_dir := run_dir args;
                  data := d; output := o |} tr = main args tr) ∧
  (type args = "confusion" →
   ∀ o, main {| type := type args; run_dir := run_dir args;
                data := data args; output := o |} tr = main args tr) ∧
  (type args = "status" →
   ∀ d, main {| type := type args; run_dir := run_dir args;
                data := d; output := output args |} tr = main args tr).
Proof.
  split; [| split].
  - intros [Ht | Ht] d o.
    + rewrite (main_mode _ "train" train_plot) by done.
      by rewrite (main_mode args "train" train_plot).
    + rewrite (main_mode _ "ablation" ablation) by done.
      by rewrite (main_mode args "ablation" ablation).
  - intros Ht o.
    rewrite (main_mode _ "confusion" (confusion_plot args)) by done.
    by rewrite (main_mode args "confusion" (confusion_plot args)).
  - intros Ht d.
    rewrite (main_mode _ "status" (display_status args)) by done.
    by rewrite (main_mode args "status" (display_status args)).
Qed.

(** X1: when no [log.txt] is found, the train mode still saves a figure,
    without any curve; the confusion mode does nothing; and the status, the
    multi-eval and the ablation modes raise the [ValueError] of
    [pd.concat] on an empty list, before any output. *)
Theorem main_without_runs args tr :
  glob2_glob (os_path_join (run_dir args) "**/log.txt") = [] →
  (type args = "train" → io_ok (train_events []) →
   main args tr = (Ok (), tr ++ train_events []) ∧
   curves_on 1 (train_events []) = [] ∧ curves_on 2 (train_events []) = [] ∧
   saved_figures (train_events []) = ["train_progress.pdf"]) ∧
  (type args = "confusion" → main args tr = (Ok (), tr)) ∧
  (type args = "status" ∨ type args = "multi-eval" ∨ type args = "ablation" →
   main args tr = (Raise (ValueError "No objects to concatenate"), tr)).
Proof.
  intros Hglob.
  assert (Hruns : runs_of args = []) by (unfold runs_of; by rewrite Hglob).
  split; [| split].
  - intros Ht Hok. split; [| done].
    rewrite (main_mode args "train" train_plot) by done.
    rewrite Hruns, train_plot_blocks, single_block_run. simpl traverse.
    cbn [fmap result_fmap]. by apply emits_Ok.
  - intros Ht. rewrite (main_mode args "confusion" (confusion_plot args)) by done.
    by rewrite Hruns.
  - intros [Ht | [Ht | Ht]].
    + rewrite (main_mode args "status" (display_status args)) by done.
      by rewrite Hruns, display_status_blocks, single_block_run.
    + rewrite (main_mode args "multi-eval" (offset_eval args)) by done.
      by rewrite Hruns, offset_eval_blocks, single_block_run.
    + rewrite (main_mode args "ablation" ablation) by done.
      by rewrite Hruns, ablation_blocks_run.
Qed.

End CommandLineFacts.

Section PathFacts.

Lemma lstrip_while_head (p : ascii → bool) (l : list ascii) :
  match lstrip_while p l with
  | [] => forallb p l = true
  | c :: _ => p c = false
  end.
Proof.
  induction l as [|c l IH]; simpl; [done|].
  destruct (p c) eqn:Hc; [exact IH | exact Hc].
Qed.

Lemma lstrip_while_all (p : ascii → bool) (l : list ascii) :
  forallb p l = true → lstrip_while p l = [].
Proof.
  induction l as [|c l IH]; simpl; [done|].
  intros [-> Hl]%andb_prop. by apply IH.
Qed.

Lemma endswith_sep_string (l : list ascii) :
  endswith_sep (string_of_list_ascii l) =
  match rev l with c :: _ => is_sep c | [] => false end.
Proof. unfold endswith_sep. by rewrite list_ascii_of_string_of_list_ascii. Qed.

(** What [os.path.dirname] returns: separators only, or a path that does
    not end with a separator. *)
Lemma os_path_dirname_shape (p : string) :
  ∃ d, os_path_dirname p = string_of_list_ascii d ∧
       (forallb is_sep d = true ∨ ∃ c r, rev d = c :: r ∧ is_sep c = false).
Proof.
  unfold os_path_dirname.
  set (head := rstrip_while (fun c => negb (is_sep c)) (list_ascii_of_string p)).
  destruct (forallb is_sep head) eqn:Hall.
  - exists head. auto.
  - exists (rstrip_while is_sep head). split; [done|]. right.
    unfold rstrip_while at 1. rewrite rev_involutive.
    pose proof (lstrip_while_head is_sep (rev head)) as Hhd.
    destruct (lstrip_while is_sep (rev head)) as [|c r]; [|by eauto].
    rewrite forallb_rev in Hhd. congruence.
Qed.

Lemma os_path_dirname_join_seps (d : list ascii) (f : string) :
  forallb is_sep d = true →
  forallb (fun c => negb (is_sep c)) (list_ascii_of_string f) = true →
  startswith_sep f = false →
  os_path_dirname (os_path_join (string_of_list_ascii d) f) = string_of_list_ascii d.
Proof.
  intros Hall Hf Hstart. unfold os_path_join. rewrite Hstart, endswith_sep_string.
  assert (Hrevall : forallb is_sep (rev d) = true) by by rewrite forallb_rev.
  destruct (rev d) as [|c r] eqn:Hrev.
  - assert (d = []) as ->.
    { apply (f_equal (@rev ascii)) in Hrev. by rewrite rev_involutive in Hrev. }
    simpl. unfold os_path_dirname, rstrip_while.
    rewrite lstrip_while_all by by rewrite forallb_rev. reflexivity.
  - simpl in Hrevall. apply andb_prop in Hrevall as [Hc Hr].
    rewrite Hc, orb_true_r.
    unfold os_path_dirname, rstrip_while.
    rewrite list_ascii_of_string_app, list_ascii_of_string_of_list_ascii.
    rewrite rev_app_distr, Hrev.
    rewrite (lstrip_while_app_stop _ _ c r);
      [| by rewrite forallb_rev | by rewrite Hc].
    rewrite <- Hrev, rev_involutive. by rewrite Hall.
Qed.

(** X9: a file put with [os.path.join] into the directory
    [os.path.dirname] gave for some path has that directory as its own:
    the [confusion.pdf] of a run whose directory was read off its
    [log.txt] lies beside the [log.txt]. *)
Theorem dirname_join_dirname (p f : string) :
  forallb (fun c => negb (is_sep c)) (list_ascii_of_string f) = true →
  os_path_dirname (os_path_join (os_path_dirname p) f) = os_path_dirname p.
Proof.
  intros Hf.
  assert (Hstart : startswith_sep f = false).
  { destruct f as [|c f]; [done|]. simpl in *.
    apply andb_prop in Hf as [Hc _]. by apply negb_true_iff in Hc. }
  destruct (os_path_dirname_shape p) as (d & -> & [Hall | (c & r & Hrev & Hc)]).
  - by apply os_path_dirname_join_seps.
  - assert (Hne : string_of_list_ascii d ≠ "").
    { intros Hd. apply (f_equal list_ascii_of_string) in Hd.
      rewrite list_ascii_of_string_of_list_ascii in Hd. simpl in Hd.
      by rewrite Hd in Hrev. }
    assert (Hend : endswith_sep (string_of_list_ascii d) = false).
    { by rewrite endswith_sep_string, Hrev. }
    unfold os_path_join. rewrite Hstart, Hend.
    destruct (String.eqb_spec (string_of_list_ascii d) ""); [done|].
    simpl. by apply os_path_dirname_file.
Qed.

End PathFacts.

Section PredictFacts.
Context `{World}.

Lemma predict_traverse m loader cuda :
  predict m loader cuda =
  (fun l => (map (fun t => fst (fst t)) l, map (fun t => snd (fst t)) l, map snd l))
    <$> traverse (predict_batch m (truthy cuda)) (batches loader).
Proof. unfold predict. by rewrite predict_loop_traverse. Qed.

Lemma argmax_from_lt best besti i l :
  besti < i → argmax_from best besti i l < i + length l.
Proof.
  revert best besti i. induction l as [|x l IH]; intros best besti i Hlt; simpl.
  - lia.
  - destruct (float_gtb x best).
    + specialize (IH x i (S i)). lia.
    + specialize (IH best besti (S i)). lia.
Qed.

Lemma argmax_row_bounds e l z :
  argmax_row e l = Ok z → (0 ≤ z < Z.of_nat (length l))%Z.
Proof.
  destruct l as [|x l]; [discriminate|]. simpl. intros [= <-].
  pose proof (argmax_from_lt x 0 1 l). lia.
Qed.

Lemma argmax_rows_head e a y_hat p :
  argmax_rows e a = Ok y_hat → head y_hat = Some p →
  0 < nrows a ∧ argmax_row e (row_of a 0) = Ok p.
Proof.
  unfold argmax_rows, rows_of. destruct (nrows a) as [|n]; simpl.
  - by intros [= <-].
  - destruct (argmax_row e (row_of a 0)) as [z|]; [|discriminate].
    destruct (traverse _ _); [|discriminate].
    intros [= <-] [= <-]. split; [lia | done].
Qed.

Lemma length_row_of a i : (List.length (row_of a i) ≤ ncols a)%nat.
Proof. unfold row_of. rewrite length_take. lia. Qed.

(** X3: every prediction [predict] returns is a class of the model: for
    the batch it comes from, it is an index of a column of the logits, and
    the logits hold at least one sample. *)
Theorem predictions_in_range m loader cuda predictions targets confidences :
  predict m loader cuda = Ok (predictions, targets, confidences) →
  ∀ n x y p,
    batches loader !! n = Some (x, y) →
    predictions !! n = Some p →
    ∃ logits, forward m x = Ok logits ∧
              0 < nrows logits ∧
              (0 ≤ p < Z.of_nat (ncols logits))%Z.
Proof.
  rewrite predict_traverse.
  intros (l & Hl & [= -> -> ->])%result_fmap_Ok n x y p Hn Hp.
  apply traverse_Ok in Hl.
  destruct (Forall2_lookup_l _ _ _ _ _ Hl Hn) as ([[p' t] c] & Hln & Hb).
  rewrite list_lookup_fmap, Hln in Hp. simpl in Hp. injection Hp as ->.
  apply predict_batch_Ok in Hb as (logits & y_hat & Hm & Hmax & Hhd & _).
  destruct (argmax_rows_head _ _ _ _ Hmax Hhd) as [Hrows Hrow].
  apply argmax_row_bounds in Hrow. pose proof (length_row_of logits 0).
  exists logits. split; [done|]. split; [done|]. lia.
Qed.

(** The ranking of an argmax is a strict order.  [>] with NaN put above
    every number is transitive and asymmetric ([nan_gtb_trans] and
    [nan_gtb_asym] below show it on [DemoNaN]); bare [>] is not the ranking
    the libraries use, since no number is greater than a NaN they return. *)
Hypothesis float_gtb_trans :
  ∀ x y z, float_gtb x y = true → float_gtb y z = true → float_gtb x z = true.
Hypothesis float_gtb_asym :
  ∀ x y, float_gtb x y = true → float_gtb y x = false.

Lemma argmax_from_max (L : list float) l :
  ∀ pre best besti,
    L = pre ++ l → besti < length pre → nth besti L nan = best →
    (∀ x, x ∈ pre → float_gtb x best = false) →
    ∀ x, x ∈ L →
         float_gtb x (nth (argmax_from best besti (length pre) l) L nan) = false.
Proof.
  induction l as [|v l IH]; intros pre best besti HL Hlt Hbest Hpre x Hx.
  - simpl. rewrite app_nil_r in HL. subst L. rewrite Hbest. by apply Hpre.
  - simpl. assert (HL' : L = (pre ++ [v]) ++ l) by by rewrite <- app_assoc.
    assert (Hv : nth (length pre) L nan = v).
    { rewrite HL. by rewrite nth_middle. }
    destruct (float_gtb v best) eqn:Hgt.
    + replace (S (length pre)) with (length (pre ++ [v]))
        by (rewrite length_app; simpl; lia).
      apply (IH (pre ++ [v]) v (length pre)); try done.
      * rewrite length_app. simpl. lia.
      * intros y [Hy | ->%list_elem_of_singleton]%elem_of_app.
        -- destruct (float_gtb y v) eqn:Hyv; [|done].
           rewrite <- (Hpre y Hy). symmetry. by apply (float_gtb_trans y v best).
        -- destruct (float_gtb v v) eqn:Hvv; [|done].
           by rewrite (float_gtb_asym v v Hvv) in Hvv.
    + replace (S (length pre)) with (length (pre ++ [v]))
        by (rewrite length_app; simpl; lia).
      apply (IH (pre ++ [v]) best besti); try done.
      * rewrite length_app. simpl. lia.
      * intros y [Hy | ->%list_elem_of_singleton]%elem_of_app; [by apply Hpre | done].
Qed.

Lemma argmax_row_max e l z :
  argmax_row e l = Ok z →
  ∀ x, x ∈ l → float_gtb x (nth (Z.to_nat z) l nan) = false.
Proof.
  destruct l as [|v l]; [discriminate|]. simpl argmax_row. intros [= <-] x Hx.
  rewrite Nat2Z.id.
  apply (argmax_from_max (v :: l) l [v] v 0); try done.
  - simpl. lia.
  - intros y ->%list_elem_of_singleton.
    destruct (float_gtb v v) eqn:Hvv; [|done].
    by rewrite (float_gtb_asym v v Hvv) in Hvv.
Qed.

(** X4: the class [predict] records for a batch is an argmax of the
    logits of its first sample: no logit of that sample ranks above the
    logit of the recorded class, in the ranking [float_gtb] of the argmax
    (greater than, with NaN above every number). *)
Theorem prediction_is_maximal m loader cuda predictions targets confidences :
  predict m loader cuda = Ok (predictions, targets, confidences) →
  ∀ n x y p,
    batches loader !! n = Some (x, y) →
    predictions !! n = Some p →
    ∃ logits, forward m x = Ok logits ∧
              ∀ v, v ∈ row_of logits 0 →
                   float_gtb v (nth (Z.to_nat p) (row_of logits 0) nan) = false.
Proof.
  rewrite predict_traverse.
  intros (l & Hl & [= -> -> ->])%result_fmap_Ok n x y p Hn Hp.
  apply traverse_Ok in Hl.
  destruct (Forall2_lookup_l _ _ _ _ _ Hl Hn) as ([[p' t] c] & Hln & Hb).
  rewrite list_lookup_fmap, Hln in Hp. simpl in Hp. injection Hp as ->.
  apply predict_batch_Ok in Hb as (logits & y_hat & Hm & Hmax & Hhd & _).
  destruct (argmax_rows_head _ _ _ _ Hmax Hhd) as [_ Hrow].
  exists logits. split; [done|]. by apply (argmax_row_max _ _ _ Hrow).
Qed.

End PredictFacts.

Section ConfusionFacts.
Context `{World}.

Lemma confusion_blocks_inputs args runs evss :
  map (confusion_block args) runs = map Ok evss ↔
  ∃ xs, traverse (confusion_inputs args) runs = Ok xs ∧
        evss = map confusion_events_of xs.
Proof.
  revert evss. induction runs as [|run runs IH]; intros evss; simpl.
  - split.
    + destruct evss; [|discriminate]. intros _. by exists [].
    + intros (xs & [= <-] & ->). done.
  - unfold confusion_block at 1.
    destruct (confusion_inputs args run) as [[[[i ds] acc] cm]|e]; simpl.
    + split.
      * destruct evss as [|evs evss]; [discriminate|]. simpl.
        intros [= <- (xs & Hxs & ->)%IH]. rewrite Hxs. by eexists.
      * intros (xs & Hxs & ->).
        destruct (traverse (confusion_inputs args) runs) as [xs'|] eqn:Hxs';
          [|discriminate].
        injection Hxs as <-. simpl. f_equal. apply IH. by exists xs'.
    + split; [by destruct evss|]. by intros (xs & [=] & _).
Qed.

Lemma observations_confusion xs :
  saved_figures (concat (map confusion_events_of xs)) = map confusion_file xs ∧
  written_files (concat (map confusion_events_of xs)) = map confusion_file xs ∧
  opened_figures (concat (map confusion_events_of xs)) = length xs ∧
  closed_figures (concat (map confusion_events_of xs)) = length xs.
Proof.
  unfold saved_figures, written_files, opened_figures, closed_figures.
  induction xs as [|[[[i ds] acc] cm] xs (IH1 & IH2 & IH3 & IH4)]; [done|].
  change (concat (map confusion_events_of ((i, ds, acc, cm) :: xs)))
    with (confusion_events_of (i, ds, acc, cm) ++ concat (map confusion_events_of xs)).
  rewrite !omap_app, !length_app, IH1, IH2, IH3, IH4. done.
Qed.

(** X5: a completed confusion mode has saved one figure per run, in the
    order of the runs, each as [confusion.pdf] in the directory its run
    info names; it has written nothing else, and it has closed every
    figure it opened. *)
Theorem confusion_plot_files args tr tr' :
  type args = "confusion" →
  main args tr = (Ok (), tr') →
  ∃ xs new,
    traverse (confusion_inputs args) (runs_of args) = Ok xs ∧
    tr' = tr ++ new ∧
    saved_figures new = map confusion_file xs ∧
    written_files new = map confusion_file xs ∧
    opened_figures new = length (runs_of args) ∧
    closed_figures new = length (runs_of args).
Proof.
  intros Ht. rewrite (main_mode args "confusion" (confusion_plot args) Ht eq_refl).
  rewrite confusion_plot_blocks.
  intros (evss & (xs & Hxs & ->)%confusion_blocks_inputs & _ & ->)%run_blocks_Ok.
  destruct (observations_confusion xs) as (H1 & H2 & H3 & H4).
  assert (Hlen : length xs = length (runs_of args)).
  { apply traverse_Ok in Hxs. symmetry. by eapply Forall2_length. }
  exists xs, (concat (map confusion_events_of xs)).
  rewrite <- Hlen. done.
Qed.

(** X6: the confusion mode does not undo what it did.  When a run cannot
    be evaluated, [confusion_plot] raises its exception, and the figures
    of the runs before it are saved all the same. *)
Theorem confusion_plot_partial args runs1 run runs2 xs e tr :
  traverse (confusion_inputs args) runs1 = Ok xs →
  confusion_inputs args run = Raise e →
  io_ok (concat (map confusion_events_of xs)) →
  confusion_plot args (runs1 ++ run :: runs2) tr
    = (Raise e, tr ++ concat (map confusion_events_of xs)) ∧
  saved_figures (concat (map confusion_events_of xs)) = map confusion_file xs.
Proof.
  intros Hxs Hrun Hok. split; [| apply observations_confusion].
  rewrite confusion_plot_blocks, map_app. simpl.
  assert (map (confusion_block args) runs1 = map Ok (map confusion_events_of xs)) as ->.
  { apply confusion_blocks_inputs. by exists xs. }
  unfold confusion_block at 1. rewrite Hrun. cbn [fmap result_fmap].
  by apply run_blocks_Raise.
Qed.

(** X7: the ablation mode prints each table as soon as it has it: when
    the table by [embed] cannot be computed, the table by [bidirectional]
    is printed already and the exception is raised after it. *)
Theorem ablation_partial runs summary t1 e tr :
  ablation_summary runs = Ok summary →
  ablation_table summary "bidirectional" ["embed"; "hd"; "layers"] = Ok t1 →
  ablation_table summary "embed" ["bidirectional"; "hd"; "layers"] = Raise e →
  io_raises (print_series t1) = None →
  ablation runs tr = (Raise e, tr ++ [print_series t1]).
Proof.
  intros Hsum Ht1 Ht2 Hio.
  rewrite ablation_blocks_run, Hsum. unfold ablation_blocks. simpl map.
  rewrite Ht1, Ht2. cbn [fmap result_fmap].
  apply (run_blocks_Raise [[print_series t1]]). simpl. by repeat constructor.
Qed.

(** X17: a run whose hyper-parameters have no [cuda] entry stops the
    confusion mode and the multi-eval mode with [KeyError('cuda')]: the
    model is not called, nothing is plotted for the run and no summary is
    made. *)
Theorem missing_cuda_key args run runs info m loader tr :
  ri_params info !! "cuda" = None →
  (load_run run (data args) None = Ok (info, m, loader) →
   confusion_plot args (run :: runs) tr = (Raise (KeyError "cuda"), tr)) ∧
  (load_run run (data args) (Some "all") = Ok (info, m, loader) →
   offset_eval_run args run = Raise (KeyError "cuda") ∧
   offset_eval args (run :: runs) tr = (Raise (KeyError "cuda"), tr)).
Proof.
  intros Hkey. split.
  - intros Hload. rewrite confusion_plot_blocks. simpl.
    unfold confusion_block, confusion_inputs, getitem.
    by rewrite Hload; cbn [mbind result_bind]; rewrite Hkey.
  - intros Hload.
    assert (Hrun : offset_eval_run args run = Raise (KeyError "cuda")).
    { unfold offset_eval_run, getitem.
      by rewrite Hload; cbn [mbind result_bind]; rewrite Hkey. }
    split; [done|].
    rewrite offset_eval_blocks, single_block_run. unfold offset_table.
    simpl. by rewrite Hrun.
Qed.

End ConfusionFacts.

Section OffsetEvalFacts.
Context `{World}.

Lemma traverse_length {A B : Type} (f : A → result B) l bs :
  traverse f l = Ok bs → length bs = length l.
Proof. intros Hl%traverse_Ok. symmetry. by eapply Forall2_length. Qed.

(** X10: the dataset shapes that stop the multi-offset evaluation of a
    run, once the run is loaded and predicted: a [skip] of zero raises
    [ZeroDivisionError]; a loader without batches raises the [ValueError]
    of [np.concatenate] on an empty list; and a dataset shorter than
    [skip], for which [n_samples] is zero, raises the [ValueError] of
    [reshape]. *)
Theorem offset_eval_run_errors args run info m loader cuda ps ts cs :
  load_run run (data args) (Some "all") = Ok (info, m, loader) →
  getitem (ri_params info) "cuda" = Ok cuda →
  predict m loader cuda = Ok (ps, ts, cs) →
  (skip (dataset loader) = 0 →
   offset_eval_run args run = Raise ZeroDivisionError) ∧
  (skip (dataset loader) ≠ 0 → batches loader = [] →
   offset_eval_run args run =
     Raise (ValueError "need at least one array to concatenate")) ∧
  (skip (dataset loader) ≠ 0 → batches loader ≠ [] →
   (ds_len (dataset loader) < skip (dataset loader))%nat →
   (∃ e, np_concatenate cs = Raise e ∧ offset_eval_run args run = Raise e) ∨
   offset_eval_run args run = Raise (ValueError "cannot reshape array")).
Proof.
  intros Hload Hcuda Hp.
  rewrite (offset_eval_run_step _ _ _ _ _ _ _ _ _ Hload Hcuda Hp).
  unfold floordiv. split; [| split].
  - by intros ->.
  - intros Hskip Hb. destruct (Nat.eqb_spec (skip (dataset loader)) 0); [done|].
    cbn [mbind result_bind].
    rewrite predict_traverse, Hb in Hp. simpl in Hp. by injection Hp as <- <- <-.
  - intros Hskip _ Hlt. destruct (Nat.eqb_spec (skip (dataset loader)) 0); [done|].
    cbn [mbind result_bind]. rewrite Nat.div_small by done.
    destruct (np_concatenate cs) as [a|e]; [right | left; by exists e].
    cbn [mbind result_bind]. unfold reshape. by rewrite Nat.mul_0_r.
Qed.

(** X11: the multi-offset evaluation scores [n_samples] predictions, one
    per row of the averaged confidences, against the targets of the first
    [n_samples] batches: the two lists have the same length exactly when
    the loader yields at least [n_samples] batches. *)
Theorem offset_eval_run_lengths m loader cuda ps ts cs a a3 predictions n_samples :
  predict m loader cuda = Ok (ps, ts, cs) →
  reshape a (skip (dataset loader)) n_samples = Ok a3 →
  np_argmax_axis1 (mean_axis0 a3) = Ok predictions →
  length predictions = n_samples ∧
  length (take n_samples ts) = n_samples `min` length (batches loader) ∧
  (length (take n_samples ts) = length predictions ↔
   (n_samples ≤ length (batches loader))%nat).
Proof.
  intros Hp Ha3 Hpred.
  apply reshape_Ok in Ha3 as (_ & Hd1 & _).
  assert (Hlen : length predictions = n_samples).
  { unfold np_argmax_axis1, argmax_rows, rows_of in Hpred.
    apply traverse_length in Hpred. rewrite Hpred, length_map, length_seq.
    simpl. exact Hd1. }
  assert (Hts : length ts = length (batches loader)).
  { rewrite predict_traverse in Hp.
    apply result_fmap_Ok in Hp as (l & Hl & [= -> -> ->]).
    rewrite length_map. by apply traverse_length in Hl. }
  rewrite length_take, Hlen, Hts. split; [done|]. split; [done|]. lia.
Qed.

End OffsetEvalFacts.

Section ShapeFacts.
Context `{World}.

Lemma length_concat_sum {A : Type} (ls : list (list A)) :
  length (concat ls) = sum_list (map length ls).
Proof. induction ls as [|l ls IH]; simpl; [done|]. by rewrite length_app, IH. Qed.

Lemma np_concatenate_Ok cs a :
  np_concatenate cs = Ok a →
  cs ≠ [] ∧ Forall (fun b => ncols b = ncols a) cs ∧
  nrows a = sum_list (map nrows cs) ∧ elems2 a = concat (map elems2 cs).
Proof.
  unfold np_concatenate. destruct cs as [|c cs]; [discriminate|].
  destruct (forallb _ (c :: cs)) eqn:Hall; [|discriminate].
  intros [= <-]. simpl. split; [done|]. split; [|done].
  apply Forall_forall. intros b Hb%list_elem_of_In.
  rewrite forallb_forall in Hall. by apply Nat.eqb_eq, Hall.
Qed.

Lemma length_row_of_wf a i :
  wf2 a → i < nrows a → length (row_of a i) = ncols a.
Proof.
  unfold wf2, row_of. intros Hwf Hi.
  rewrite length_take, length_drop, Hwf. nia.
Qed.

(** X12: shapes and buffers stay consistent along the multi-offset
    pipeline.  When [softmax] keeps the length of a row, the confidences
    of well-formed logits are well formed; the concatenation of
    well-formed arrays is well formed and holds the rows of all of them;
    a reshape keeps the elements and their number; and the mean over the
    first axis is well formed. *)
Theorem shapes_consistent :
  (∀ logits, (∀ r, length (softmax_row r) = length r) →
             wf2 logits → wf2 (softmax_dim1 logits)) ∧
  (∀ cs a, Forall wf2 cs → np_concatenate cs = Ok a →
           wf2 a ∧ nrows a = sum_list (map nrows cs)) ∧
  (∀ a d0 d1 a3, wf2 a → reshape a d0 d1 = Ok a3 →
                 wf3 a3 ∧ elems3 a3 = elems2 a) ∧
  (∀ a3, wf2 (mean_axis0 a3)).
Proof.
  split; [| split; [| split]].
  - intros logits Hsoft Hwf. unfold wf2, softmax_dim1. simpl.
    rewrite length_concat_sum, map_map.
    unfold rows_of. rewrite map_map.
    change (map ?f ?l) with (f <$> l).
    rewrite (sum_list_fmap_same (ncols logits)), length_seq; [done|].
    apply Forall_forall. intros i Hi%elem_of_seq.
    rewrite Hsoft. apply length_row_of_wf; [done | lia].
  - intros cs a Hwf Ha.
    apply np_concatenate_Ok in Ha as (_ & Hcols & Hrows & Helems).
    split; [|done]. unfold wf2. rewrite Helems, Hrows, length_concat_sum, map_map.
    clear Hrows Helems. induction cs as [|c cs IH]; [done|].
    apply Forall_cons in Hwf as [Hc Hwf]. apply Forall_cons in Hcols as [Hcc Hcols].
    simpl. rewrite IH by done. rewrite Hc, Hcc. lia.
  - intros a d0 d1 a3 Hwf Ha3.
    apply reshape_Ok in Ha3 as (Hd0 & Hd1 & _ & Helems & Hsize).
    split; [|done]. unfold wf3. by rewrite Helems, Hwf, Hd0, Hd1.
  - intros a3. unfold wf2, mean_axis0. simpl. by rewrite length_map, length_seq.
Qed.

Lemma map_nth_seq {A : Type} (l : list A) d :
  map (fun k => nth k l d) (seq 0 (length l)) = l.
Proof.
  induction l as [|x l IH]; [done|].
  simpl. f_equal. rewrite <- seq_shift, map_map. exact IH.
Qed.

(** X13: with a [skip] of one the multi-offset prediction is the plain
    one.  When the mean of a single number is that number, reshaping a
    well-formed array of [n] rows to [(1, n, -1)], averaging over the
    first axis and taking the argmax over the last gives the argmax of
    every row of the array. *)
Theorem single_offset_predictions a :
  (∀ x, np_mean [x] = x) → wf2 a → 0 < nrows a →
  (a3 ← reshape a 1 (nrows a); np_argmax_axis1 (mean_axis0 a3))
  = np_argmax_axis1 a.
Proof.
  intros Hmean Hwf Hrows.
  rewrite reshape_rows by lia. cbn [mbind result_bind].
  rewrite argmax_mean_rows.
  unfold multi_offset_predictions, np_argmax_axis1, argmax_rows, rows_of.
  rewrite traverse_map. apply traverse_ext_in. intros j Hj%elem_of_seq.
  f_equal. unfold averaged_confidence. simpl.
  etransitivity; [| apply (map_nth_seq (row_of a j) nan)].
  rewrite length_row_of_wf by (done || lia).
  apply map_ext. intros k. by rewrite Hmean.
Qed.

End ShapeFacts.

Section SummaryFacts.
Context `{World}.

Lemma concat_columns (frames : list DataFrame) (acc : list string) col :
  col ∈ foldl (fun acc f => acc ++ filter (fun c => c ∉ acc) (columns f)) acc frames ↔
  col ∈ acc ∨ Exists (fun f => col ∈ columns f) frames.
Proof.
  revert acc. induction frames as [|f frames IH]; intros acc; simpl.
  - rewrite Exists_nil. tauto.
  - rewrite IH, Exists_cons, elem_of_app, list_elem_of_filter.
    destruct (decide (col ∈ acc)); tauto.
Qed.

Lemma pd_concat_columns frames d col :
  pd_concat frames = Ok d →
  col ∈ columns d ↔ Exists (fun f => col ∈ columns f) frames.
Proof.
  destruct frames as [|f frames]; [discriminate|]. intros [= <-].
  etransitivity; [apply (concat_columns (f :: frames) [] col)|].
  split; [intros [Hnil | Hex]; [by apply elem_of_nil in Hnil | done] | by right].
Qed.

(** X16: the column the summary table is sorted by must be there.  In
    the status mode, when no summary of a run has a [best_acc] column the
    sort raises [KeyError('best_acc')] and nothing is written or printed;
    when one has it, the table goes out with the columns of all the
    summaries. *)
Theorem status_needs_best_acc args runs infos summaries tr :
  traverse get_run_info runs = Ok infos →
  traverse (fun i => get_run_summary i None) infos = Ok summaries →
  summaries ≠ [] →
  (Forall (fun f => "best_acc" ∉ columns f) summaries →
   display_status args runs tr = (Raise (KeyError "best_acc"), tr)) ∧
  (Exists (fun f => "best_acc" ∈ columns f) summaries →
   ∃ s, status_table runs = Ok s ∧
        ∀ col, col ∈ columns s ↔ Exists (fun f => col ∈ columns f) summaries).
Proof.
  intros Hinfos Hsums Hne.
  destruct (pd_concat summaries) as [c|e] eqn:Hc;
    [| destruct summaries; [done | discriminate]].
  pose proof (pd_concat_columns _ _ "best_acc" Hc) as Hcol.
  split.
  - intros Hnone.
    rewrite display_status_blocks, single_block_run. unfold status_table.
    rewrite Hinfos. cbn [mbind result_bind]. rewrite Hsums. cbn [mbind result_bind].
    rewrite Hc. cbn [mbind result_bind]. unfold sort_values_desc.
    case_bool_decide as Hin; [|done].
    apply Hcol, Exists_exists in Hin as (f & Hf & Hin).
    rewrite Forall_forall in Hnone. by destruct (Hnone f Hf).
  - intros Hsome. unfold status_table.
    rewrite Hinfos. cbn [mbind result_bind]. rewrite Hsums. cbn [mbind result_bind].
    rewrite Hc. cbn [mbind result_bind]. unfold sort_values_desc.
    case_bool_decide as Hin; [| by destruct Hin; apply Hcol].
    eexists. split; [done|]. intros col. cbn [columns].
    by apply pd_concat_columns.
Qed.

(** X14: the status mode reads the info of every run before it makes any
    summary, the ablation mode makes the summary of a run before it reads
    the next info: when the summary of the first run and the info of the
    second both fail, the status mode raises the failure of the info and
    the ablation mode that of the summary. *)
Theorem first_failure args r1 r2 runs i1 e1 e2 tr :
  get_run_info r1 = Ok i1 →
  get_run_summary i1 None = Raise e1 →
  get_run_info r2 = Raise e2 →
  display_status args (r1 :: r2 :: runs) tr = (Raise e2, tr) ∧
  ablation (r1 :: r2 :: runs) tr = (Raise e1, tr).
Proof.
  intros Hi1 Hs1 Hi2. split.
  - rewrite display_status_blocks, single_block_run. unfold status_table.
    simpl. by rewrite Hi1, Hi2.
  - rewrite ablation_blocks_run. unfold ablation_summary.
    simpl. rewrite Hi1. cbn [mbind result_bind]. by rewrite Hs1.
Qed.

End SummaryFacts.

(** * The further properties at work *)
Module Examples2.
Import Demo.

(** X18 on [plot.py status runs]. *)
Lemma run_dir_trailing_sep_example :
  os_path_join "runs/" "**/log.txt" = os_path_join "runs" "**/log.txt" ∧
  ∀ tr, main status_args tr = main (Demo2.args_of "status" "runs") tr.
Proof.
  split.
  - exact (proj1 (run_dir_trailing_sep (H0 := world) (Demo2.args_of "status" "runs") []
                    ltac:(discriminate) eq_refl)).
  - intros tr.
    exact (proj2 (run_dir_trailing_sep (H0 := world) (Demo2.args_of "status" "runs") tr
                    ltac:(discriminate) eq_refl)).
Defined.

(** X1 on [plot.py status none/], a directory without runs. *)
Lemma main_without_runs_example :
  glob2_glob (os_path_join "none/" "**/log.txt") = [] ∧
  main (Demo2.args_of "status" "none/") []
    = (Raise (ValueError "No objects to concatenate"), []).
Proof.
  split; [reflexivity|].
  exact (proj2 (proj2 (main_without_runs (H0 := world)
                         (Demo2.args_of "status" "none/") [] eq_refl))
           (or_introl eq_refl)).
Defined.

(** X9 on the log of the run [runs/a]. *)
Lemma dirname_join_dirname_example :
  os_path_dirname "runs/a/log.txt" = "runs/a" ∧
  os_path_dirname (os_path_join "runs/a" "confusion.pdf") = "runs/a".
Proof.
  split; [reflexivity|].
  exact (dirname_join_dirname "runs/a/log.txt" "confusion.pdf" eq_refl).
Defined.

(** X3 on six batches of one sample over two classes. *)
Lemma predictions_in_range_example :
  ∃ ps ts cs,
    predict () (loader6 2) (VBool false) = Ok (ps, ts, cs) ∧
    ps !! 1 = Some 1%Z ∧
    ∃ logits, forward () [[1; 5]]%Z = Ok logits ∧
              0 < nrows logits ∧ (0 ≤ 1 < Z.of_nat (ncols logits))%Z.
Proof.
  eexists _, _, _. split; [reflexivity|]. split; [reflexivity|].
  exact (predictions_in_range (H0 := world) () (loader6 2) (VBool false) _ _ _
           eq_refl 1 [[1; 5]]%Z [1]%Z 1%Z eq_refl eq_refl).
Defined.

(** X5 on [plot.py confusion]. *)
Lemma confusion_plot_files_example :
  ∃ tr',
    main confusion_args [] = (Ok (), tr') ∧
    ∃ xs new,
      traverse (confusion_inputs confusion_args) (runs_of confusion_args) = Ok xs ∧
      tr' = [] ++ new ∧
      saved_figures new = map confusion_file xs ∧
      written_files new = map confusion_file xs ∧
      opened_figures new = 2 ∧
      closed_figures new = 2.
Proof.
  eexists. split; [reflexivity|].
  exact (confusion_plot_files (H0 := world) confusion_args [] _ eq_refl eq_refl).
Defined.

(** X11 on the six batches, two offsets. *)
Lemma offset_eval_run_lengths_example :
  let a := {| nrows := 6; ncols := 2;
              elems2 := [5; 1; 1; 5; 2; 6; 4; 1; 1; 2; 0; 9]%Z |} in
  let a3 := {| dim0 := 2; dim1 := 3; dim2 := 2; elems3 := elems2 a |} in
  reshape a 2 3 = Ok a3 ∧
  np_argmax_axis1 (mean_axis0 a3) = Ok [0; 1; 1]%Z ∧
  length [0; 1; 1]%Z = 3 ∧
  length (take 3 [0; 1; 1; 0; 0; 1]%Z) = 3 `min` 6.
Proof.
  cbv zeta. split; [reflexivity|]. split; [reflexivity|].
  destruct (offset_eval_run_lengths (H0 := world) () (loader6 2) (VBool false)
              _ _ _
              (@Build_array2 types 6 2 [5; 1; 1; 5; 2; 6; 4; 1; 1; 2; 0; 9]%Z)
              (@Build_array3 types 2 3 2 [5; 1; 1; 5; 2; 6; 4; 1; 1; 2; 0; 9]%Z)
              [0; 1; 1]%Z 3 eq_refl eq_refl eq_refl) as (Hp & Ht & _).
  exact (conj Hp Ht).
Defined.

(** X13 on the six batches, one offset. *)
Lemma single_offset_predictions_example :
  let a := {| nrows := 6; ncols := 2;
              elems2 := [5; 1; 1; 5; 2; 6; 4; 1; 1; 2; 0; 9]%Z |} in
  (∀ x : Z, np_mean [x] = x) ∧ wf2 a ∧
  (a3 ← reshape a 1 6; np_argmax_axis1 (mean_axis0 a3)) = np_argmax_axis1 a.
Proof.
  cbv zeta.
  assert (Hmean : ∀ x : Z, np_mean [x] = x).
  { intros x. simpl. rewrite Z.add_0_r. apply Z.div_1_r. }
  split; [exact Hmean|]. split; [reflexivity|].
  exact (single_offset_predictions (H0 := world)
           (@Build_array2 types 6 2 [5; 1; 1; 5; 2; 6; 4; 1; 1; 2; 0; 9]%Z)
           Hmean eq_refl ltac:(simpl; lia)).
Defined.

End Examples2.

Module Examples3.
#[local] Existing Instance Demo2.world | 0.

(** X6 on the runs [runs/a] and [broken]: the figure of [runs/a] is
    saved, then the exception is raised. *)
Lemma confusion_plot_partial_example :
  ∃ xs,
    traverse (confusion_inputs Demo.confusion_args) ["runs/a"] = Ok xs ∧
    confusion_inputs Demo.confusion_args "broken" = Raise (LibraryError "no log.txt") ∧
    confusion_plot Demo.confusion_args (["runs/a"] ++ "broken" :: ["runs/b"]) []
      = (Raise (LibraryError "no log.txt"), [] ++ concat (map confusion_events_of xs)) ∧
    saved_figures (concat (map confusion_events_of xs)) = ["runs/a/confusion.pdf"].
Proof.
  eexists. split; [reflexivity|]. split; [reflexivity|].
  refine (confusion_plot_partial (H0 := Demo2.world) Demo.confusion_args
            ["runs/a"] "broken" ["runs/b"] _ _ [] eq_refl eq_refl _).
  vm_compute. repeat constructor.
Defined.

(** X7: the pivot by [embed] fails after the table by [bidirectional] is
    printed. *)
Lemma ablation_partial_example :
  ∃ summary t1,
    ablation_summary ["runs/a"] = Ok summary ∧
    ablation_table summary "bidirectional" ["embed"; "hd"; "layers"] = Ok t1 ∧
    ablation ["runs/a"] []
      = (Raise (LibraryError "no column embed"), [] ++ [print_series t1]).
Proof.
  eexists _, _. split; [reflexivity|]. split; [reflexivity|].
  exact (ablation_partial (H0 := Demo2.world) ["runs/a"] _ _ _ []
           eq_refl eq_refl eq_refl eq_refl).
Defined.

(** X17 on a run whose hyper-parameters are empty. *)
Lemma missing_cuda_key_example :
  ri_params (Demo2.info_named "nocuda") !! "cuda" = None ∧
  confusion_plot Demo.confusion_args ["nocuda"; "runs/a"] []
    = (Raise (KeyError "cuda"), []) ∧
  offset_eval Demo.multi_eval_args ["nocuda"; "runs/a"] []
    = (Raise (KeyError "cuda"), []).
Proof.
  split; [reflexivity|].
  destruct (missing_cuda_key (H0 := Demo2.world) Demo.confusion_args
              "nocuda" ["runs/a"] (Demo2.info_named "nocuda") ()
              (Demo2.loader_named "nocuda") [] eq_refl) as [Hc Ho].
  exact (conj (Hc eq_refl) (proj2 (Ho eq_refl))).
Defined.

(** X10 on a dataset whose [skip] is zero. *)
Lemma offset_eval_run_errors_example :
  skip (dataset (Demo2.loader_named "skip0")) = 0 ∧
  offset_eval_run Demo.multi_eval_args "skip0" = Raise ZeroDivisionError.
Proof.
  split; [reflexivity|].
  exact (proj1 (offset_eval_run_errors (H0 := Demo2.world) Demo.multi_eval_args
                  "skip0" (Demo2.info_named "skip0") () (Demo2.loader_named "skip0")
                  (VBool false) _ _ _ eq_refl eq_refl eq_refl) eq_refl).
Defined.

(** X16 on a run whose summary has a [label] column only. *)
Lemma status_needs_best_acc_example :
  ∃ infos summaries,
    traverse get_run_info ["bare"] = Ok infos ∧
    traverse (fun i => get_run_summary i None) infos = Ok summaries ∧
    Forall (fun f => "best_acc" ∉ columns f) summaries ∧
    display_status Demo.status_args ["bare"] [] = (Raise (KeyError "best_acc"), []).
Proof.
  eexists _, _. split; [reflexivity|]. split; [reflexivity|].
  assert (Hnone : Forall (fun f : DataFrame => "best_acc" ∉ columns f)
                         [{| columns := ["label"]; rows := [∅] |}]).
  { repeat constructor. by intros Hin%list_elem_of_singleton. }
  split; [exact Hnone|].
  exact (proj1 (status_needs_best_acc (H0 := Demo2.world) Demo.status_args
                  ["bare"] _ _ [] eq_refl eq_refl ltac:(discriminate)) Hnone).
Defined.

(** X14 on a run without summary followed by a run without log. *)
Lemma first_failure_example :
  display_status Demo.status_args ["nosummary"; "broken"; "runs/a"] []
    = (Raise (LibraryError "no log.txt"), []) ∧
  ablation ["nosummary"; "broken"; "runs/a"] []
    = (Raise (LibraryError "no summary"), []).
Proof.
  exact (first_failure (H0 := Demo2.world) Demo.status_args
           "nosummary" "broken" ["runs/a"] _ _ _ [] eq_refl eq_refl eq_refl).
Defined.

End Examples3.

(** * The argmax in the presence of NaN *)
Module Examples4.
Import DemoNaN.
#[local] Existing Instance DemoNaN.types | 0.
#[local] Existing Instance DemoNaN.world | 0.

Lemma nan_gtb_trans (x y z : option Z) :
  nan_gtb x y = true → nan_gtb y z = true → nan_gtb x z = true.
Proof.
  destruct x as [a|], y as [b|], z as [c|]; simpl; try done.
  rewrite !Z.gtb_gt. lia.
Qed.

Lemma nan_gtb_asym (x y : option Z) : nan_gtb x y = true → nan_gtb y x = false.
Proof.
  destruct x as [a|], y as [b|]; simpl; try done.
  rewrite Z.gtb_gt. intros Hab. destruct (Z.gtb_spec b a); [lia | done].
Qed.

(** X4 on a batch with a NaN: the logits [1, nan, 3] give the class 1,
    the index of the NaN, and nothing ranks above it. *)
Lemma prediction_is_maximal_example :
  ∃ ps ts cs,
    predict () loader (VBool false) = Ok (ps, ts, cs) ∧
    ps = [1; 1]%Z ∧
    ∃ logits, forward () [[Some 1; None; Some 3]]%Z = Ok logits ∧
              row_of logits 0 = [Some 1; None; Some 3]%Z ∧
              ∀ v, v ∈ row_of logits 0 →
                   nan_gtb v (nth (Z.to_nat 1) (row_of logits 0) None) = false.
Proof.
  eexists _, _, _. split; [reflexivity|]. split; [reflexivity|].
  destruct (prediction_is_maximal (H := types) (H0 := world)
              nan_gtb_trans nan_gtb_asym
              () loader (VBool false) _ _ _
              eq_refl 0 [[Some 1; None; Some 3]]%Z [2]%Z 1%Z eq_refl eq_refl)
    as (logits & Hf & Hmax).
  exists logits. split; [exact Hf|]. split; [|exact Hmax].
  simpl in Hf. by injection Hf as <-.
Defined.

End Examples4.
